(** * Sequential tool calling in [backend/ai_generator.py]

    A shallow embedding of [AIGenerator.generate_response] and
    [AIGenerator._handle_tool_execution], with the Model Client
    ([client.messages.create]) and the tool executor
    ([tool_manager.execute_tool]) as stateful collaborators that may
    raise, and a log of every call crossing those two boundaries. *)

From Stdlib Require Import ZArith List String Ascii Bool Lia.
Import ListNotations.
Local Open Scope string_scope.
Local Open Scope Z_scope.
Local Open Scope list_scope.

Set Implicit Arguments.

(** ** Strings *)

Definition chr (n : nat) : string := String (ascii_of_nat n) EmptyString.
Definition nl : string := chr 10.

(** Python truthiness of a [str]: only the empty string is falsy. *)
Definition str_truthy (s : string) : bool :=
  match s with EmptyString => false | String _ _ => true end.

(** ** Data model *)

Inductive Role := user | assistant.

(** [content_block.input]: the keyword arguments of one tool call. *)
Definition ToolInput := list (string * string).

(** A content block of a model response; [type] is ["text"] or
    ["tool_use"]. *)
Inductive ContentBlock :=
| TextBlock (text : string)
| ToolUseBlock (id name : string) (input : ToolInput).

Definition block_type (b : ContentBlock) : string :=
  match b with
  | TextBlock _ => "text"
  | ToolUseBlock _ _ _ => "tool_use"
  end.

(** The dict appended to [tool_results]. *)
Record ToolResult := mkToolResult {
  tool_use_id : string;
  tr_content : string
}.

Inductive MessageContent :=
| PlainText (s : string)
| Blocks (bs : list ContentBlock)
| Results (rs : list ToolResult).

Record Message := mkMessage {
  role : Role;
  msg_content : MessageContent
}.

Record ToolSpec := mkToolSpec {
  ts_name : string;
  ts_description : string;
  ts_input_schema : string
}.

Record Response := mkResponse {
  stop_reason : string;
  content : list ContentBlock
}.

(** The keyword arguments of one [client.messages.create] call.  The keys
    ["tools"] and ["tool_choice"] are optional. *)
Record Request := mkRequest {
  rq_model : string;
  rq_temperature : Z;
  rq_max_tokens : Z;
  rq_messages : list Message;
  rq_system : string;
  rq_tools : option (list ToolSpec);
  rq_tool_choice : option string
}.

(** A raised Python exception: its class name and [str(e)]. *)
Record PyExn := mkExn {
  exn_class : string;
  exn_str : string
}.

(** The built-in classes that [except Exception] lets through:
    [BaseException] itself and its subclasses outside [Exception]. *)
Definition not_exception_classes : list string :=
  ["BaseException"; "BaseExceptionGroup"; "GeneratorExit";
   "KeyboardInterrupt"; "SystemExit"].

(** [isinstance(e, Exception)], by the class name. *)
Definition is_exception (e : PyExn) : bool :=
  negb (existsb (String.eqb (exn_class e)) not_exception_classes).

Definition IndexError : PyExn := mkExn "IndexError" "list index out of range".
Definition AttributeError : PyExn :=
  mkExn "AttributeError" "'ToolUseBlock' object has no attribute 'text'".

(** ** The static system prompt *)

Definition SYSTEM_PROMPT : string :=
  String.concat nl [
    " You are an AI assistant specialized in course materials and educational content with access to comprehensive search tools for course information.";
    EmptyString;
    "Search Tool Usage:";
    "- Use the search_course_content tool for questions about specific course content or detailed educational materials";
    "- Use the get_course_outline tool for questions about course structure, lesson lists, or course overviews";
    "- **You can make up to 2 tool calls per query** when needed for complex questions";
    "- Use sequential tool calls when you need to:";
    "  1. First gather information with one tool (e.g., get a course outline)";
    "  2. Then use that information with another tool (e.g., search for related content)";
    "- Synthesize search results into accurate, fact-based responses";
    "- If search yields no results, state this clearly without offering alternatives";
    EmptyString;
    "Response Protocol:";
    "- **General knowledge questions**: Answer using existing knowledge without searching";
    "- **Course-specific questions**: Search first, then answer";
    "- **Course outline questions**: Use the course outline tool and include all course details (title, link, lesson numbers and titles)";
    "- **Complex multi-part questions**: Use sequential tool calls when one search is insufficient";
    "- **No meta-commentary**:";
    ("  - Provide direct answers only " ++ chr 195 ++ chr 162 ++ chr 226 ++ chr 130 ++ chr 172 ++ chr 226 ++ chr 128 ++ chr 157 ++ " no reasoning process, search explanations, or question-type analysis")%string;
    ("  - Do not mention " ++ chr 34 ++ "based on the search results" ++ chr 34)%string;
    EmptyString;
    "All responses must be:";
    "1. **Brief, Concise and focused** - Get to the point quickly";
    "2. **Educational** - Maintain instructional value";
    "3. **Clear** - Use accessible language";
    "4. **Example-supported** - Include relevant examples when they aid understanding";
    "Provide only the direct answer to what was asked.";
    EmptyString  ].

(** ** Effects

    A run threads the state of the outside world (whatever the Model
    Client and the tool executor keep between calls) and appends every
    boundary call, with its outcome, to a log. *)

Inductive Event :=
| ModelCall (rq : Request) (out : Response + PyExn)
| ToolCall (name : string) (input : ToolInput) (out : string + PyExn).

Inductive Res (A : Type) :=
| Val (a : A)
| Exc (e : PyExn)
| OutOfFuel.

Arguments Exc {A} e.
Arguments OutOfFuel {A}.

Section Generator.

Variable W : Type.

(** [self.client.messages.create], applied to the request's keyword
    arguments *)
Variable create : W -> Request -> (Response + PyExn) * W.

(** [self.model] *)
Variable model : string.

(** [tool_manager.execute_tool], applied to a tool name and the block's
    input as keyword arguments *)
Definition Executor := W -> string -> ToolInput -> (string + PyExn) * W.

Record St := mkSt {
  world : W;
  calls : list Event
}.

Definition M (A : Type) := St -> Res A * St.

Definition ret {A} (a : A) : M A := fun s => (Val a, s).

Definition raise {A} (e : PyExn) : M A := fun s => (Exc e, s).

Definition bind {A B} (c : M A) (k : A -> M B) : M B :=
  fun s =>
    match c s with
    | (Val a, s') => k a s'
    | (Exc e, s') => (Exc e, s')
    | (OutOfFuel, s') => (OutOfFuel, s')
    end.

(** [try: c  except Exception as e: h e] *)
Definition try_except {A} (c : M A) (h : PyExn -> M A) : M A :=
  fun s =>
    match c s with
    | (Exc e, s') => if is_exception e then h e s' else (Exc e, s')
    | r => r
    end.

Notation "x <- c ;; k" := (bind c (fun x => k))
  (at level 100, c at next level, right associativity).
Notation "' p <- c ;; k" := (bind c (fun x => let 'p := x in k))
  (at level 100, p pattern, c at next level, right associativity).

Definition of_outcome {A} (o : A + PyExn) : Res A :=
  match o with
  | inl a => Val a
  | inr e => Exc e
  end.

Definition messages_create (rq : Request) : M Response :=
  fun s =>
    let (out, w') := create (world s) rq in
    (of_outcome out, mkSt w' (calls s ++ [ModelCall rq out])).

Definition execute_tool (tool_manager : Executor) (name : string)
    (input : ToolInput) : M string :=
  fun s =>
    let (out, w') := tool_manager (world s) name input in
    (of_outcome out, mkSt w' (calls s ++ [ToolCall name input out])).

(** [response.content[0].text] *)
Definition content0_text (response : Response) : M string :=
  match content response with
  | [] => raise IndexError
  | TextBlock text :: _ => ret text
  | ToolUseBlock _ _ _ :: _ => raise AttributeError
  end.

(** ** Request parameters *)

(** [self.base_params] merged with the [messages] and [system] keys *)
Definition base_params (messages : list Message) (system : string) : Request :=
  {| rq_model := model;
     rq_temperature := 0;
     rq_max_tokens := 800;
     rq_messages := messages;
     rq_system := system;
     rq_tools := None;
     rq_tool_choice := None |}.

(** Python truthiness of [tools: Optional[List]]. *)
Definition tools_truthy (tools : option (list ToolSpec)) : bool :=
  match tools with
  | Some (_ :: _) => true
  | _ => false
  end.

(** [if tools: params["tools"] = tools; params["tool_choice"] = {"type": "auto"}] *)
Definition add_tools (tools : option (list ToolSpec)) (params : Request) : Request :=
  if tools_truthy tools then
    {| rq_model := rq_model params;
       rq_temperature := rq_temperature params;
       rq_max_tokens := rq_max_tokens params;
       rq_messages := rq_messages params;
       rq_system := rq_system params;
       rq_tools := tools;
       rq_tool_choice := Some "auto" |}
  else params.

Definition history_truthy (conversation_history : option string) : bool :=
  match conversation_history with
  | Some h => str_truthy h
  | None => false
  end.

Definition system_content (conversation_history : option string) : string :=
  match conversation_history with
  | Some h =>
      if str_truthy h
      then (SYSTEM_PROMPT ++ nl ++ nl ++ "Previous conversation:" ++ nl ++ h)%string
      else SYSTEM_PROMPT
  | None => SYSTEM_PROMPT
  end.

(** ** The negotiation loop *)

Definition FALLBACK : string :=
  "Maximum tool calling rounds reached without final response.".

Definition is_tool_use (b : ContentBlock) : bool :=
  (block_type b =? "tool_use")%string.

(** The [for content_block in initial_response.content] loop, with its
    two accumulators. *)
Fixpoint run_tool_calls (tool_manager : Executor) (blocks : list ContentBlock)
    (tool_results : list ToolResult) (has_tool_calls : bool)
    : M (list ToolResult * bool) :=
  match blocks with
  | [] => ret (tool_results, has_tool_calls)
  | ToolUseBlock id name input :: rest =>
      tool_result <-
        try_except (execute_tool tool_manager name input)
          (fun e => ret ("Error executing tool: " ++ exn_str e)%string) ;;
      run_tool_calls tool_manager rest
        (tool_results ++ [mkToolResult id tool_result]) true
  | TextBlock _ :: rest =>
      run_tool_calls tool_manager rest tool_results has_tool_calls
  end.

Definition list_truthy {A} (l : list A) : bool :=
  match l with [] => false | _ :: _ => true end.

Section Loop.

Variable tool_manager : Executor.
Variable system : string.
Variable tools : option (list ToolSpec).
Variable max_rounds : Z.

(** [while current_round <= max_rounds: ...]; one unit of [fuel] per
    iteration. *)
Fixpoint tool_loop (fuel : nat) (current_round : Z)
    (initial_response : Response) (messages : list Message) : M string :=
  if current_round <=? max_rounds then
    match fuel with
    | O => fun s => (OutOfFuel, s)
    | S fuel' =>
        let messages :=
          messages ++ [mkMessage assistant (Blocks (content initial_response))] in
        ' (tool_results, has_tool_calls) <-
          run_tool_calls tool_manager (content initial_response) [] false ;;
        let messages :=
          if list_truthy tool_results
          then messages ++ [mkMessage user (Results tool_results)]
          else messages in
        if negb has_tool_calls || (current_round >=? max_rounds) then
          final_response <- messages_create (base_params messages system) ;;
          content0_text final_response
        else
          initial_response <-
            messages_create (add_tools tools (base_params messages system)) ;;
          if negb (stop_reason initial_response =? "tool_use")%string then
            content0_text initial_response
          else
            tool_loop fuel' (current_round + 1) initial_response messages
    end
  else ret FALLBACK.

End Loop.

Definition _handle_tool_execution (initial_response : Response)
    (base : Request) (tool_manager : Executor)
    (tools : option (list ToolSpec)) (max_rounds : Z) : M string :=
  let messages := rq_messages base in
  tool_loop tool_manager (rq_system base) tools max_rounds
    (Z.to_nat max_rounds) 1 initial_response messages.

Definition generate_response (query : string)
    (conversation_history : option string)
    (tools : option (list ToolSpec))
    (tool_manager : option Executor)
    (max_tool_rounds : Z) : M string :=
  let api_params :=
    add_tools tools
      (base_params [mkMessage user (PlainText query)]
         (system_content conversation_history)) in
  response <- messages_create api_params ;;
  match (stop_reason response =? "tool_use")%string, tool_manager with
  | true, Some tm =>
      _handle_tool_execution response api_params tm tools max_tool_rounds
  | _, _ => content0_text response
  end.

End Generator.

Arguments world {W} s.
Arguments calls {W} s.
Arguments mkSt {W} world calls.

(** ** Observations on a run *)

(** What [response.content[0].text] evaluates to. *)
Definition text0 (response : Response) : Res string :=
  match content response with
  | [] => Exc IndexError
  | TextBlock text :: _ => Val text
  | ToolUseBlock _ _ _ :: _ => Exc AttributeError
  end.

(** What the caller gets from the statement
    [r = create(...); return r.content[0].text]. *)
Definition answer (out : Response + PyExn) : Res string :=
  match out with
  | inl r => text0 r
  | inr e => Exc e
  end.

(** The tool-use blocks of a response, in order: (id, name, input). *)
Definition ToolUse := (string * string * ToolInput)%type.

Fixpoint tool_uses (blocks : list ContentBlock) : list ToolUse :=
  match blocks with
  | [] => []
  | ToolUseBlock id name input :: rest => (id, name, input) :: tool_uses rest
  | TextBlock _ :: rest => tool_uses rest
  end.

(** The content of the tool result built from one invocation's outcome. *)
Definition outcome_text (out : string + PyExn) : string :=
  match out with
  | inl s => s
  | inr e => ("Error executing tool: " ++ exn_str e)%string
  end.

Definition tool_events (uses : list ToolUse) (outs : list (string + PyExn))
    : list Event :=
  map (fun '((_, name, input), out) => ToolCall name input out)
      (combine uses outs).

Definition tool_results (uses : list ToolUse) (outs : list (string + PyExn))
    : list ToolResult :=
  map (fun '((id, _, _), out) => mkToolResult id (outcome_text out))
      (combine uses outs).

(** An outcome that [except Exception] does not catch. *)
Definition escapes (out : string + PyExn) : bool :=
  match out with
  | inl _ => false
  | inr e => negb (is_exception e)
  end.

(** The first exception among the outcomes that is not caught. *)
Fixpoint escaping (outs : list (string + PyExn)) : option PyExn :=
  match outs with
  | [] => None
  | inl _ :: rest => escaping rest
  | inr e :: rest => if is_exception e then escaping rest else Some e
  end.

(** Invoking the executor once per tool use, left to right, each
    invocation starting in the world the previous one left, up to the
    first one whose exception is not caught. *)
Fixpoint invoke_all {W} (tool_manager : Executor W) (w : W)
    (uses : list ToolUse) : list (string + PyExn) * W :=
  match uses with
  | [] => ([], w)
  | (_, name, input) :: rest =>
      let (out, w1) := tool_manager w name input in
      if escapes out then ([out], w1)
      else
        let (outs, w2) := invoke_all tool_manager w1 rest in
        (out :: outs, w2)
  end.


(** The transcript after one round: the assistant turn, then one user
    turn holding the round's tool results when there are any. *)
Definition round_messages (messages : list Message) (response : Response)
    (results : list ToolResult) : list Message :=
  (messages ++ [mkMessage assistant (Blocks (content response))])
    ++ (if list_truthy results then [mkMessage user (Results results)] else []).

(** The log cut at its Model Client calls: each call with the executor
    invocations that follow it, up to the next call. *)
Record Round := mkRound {
  rd_request : Request;
  rd_outcome : Response + PyExn;
  rd_tools : list (string * ToolInput * (string + PyExn))
}.

Fixpoint leading_tool_calls (evs : list Event)
    : list (string * ToolInput * (string + PyExn)) :=
  match evs with
  | ToolCall name input out :: rest => (name, input, out) :: leading_tool_calls rest
  | _ => []
  end.

Fixpoint rounds_of (evs : list Event) : list Round :=
  match evs with
  | [] => []
  | ModelCall rq out :: rest =>
      mkRound rq out (leading_tool_calls rest) :: rounds_of rest
  | ToolCall _ _ _ :: rest => rounds_of rest
  end.

Definition model_requests (evs : list Event) : list Request :=
  map rd_request (rounds_of evs).

Definition tool_invocations (evs : list Event) : list (string * ToolInput) :=
  flat_map (fun ev =>
    match ev with
    | ToolCall name input _ => [(name, input)]
    | ModelCall _ _ => []
    end) evs.

(** The invocation a tool use asks for, and the log entry it leaves. *)
Definition use_call (u : ToolUse) : string * ToolInput :=
  let '(_, name, input) := u in (name, input).


(** Roles alternate along a transcript, starting from [expected]. *)
Definition role_eqb (a b : Role) : bool :=
  match a, b with
  | user, user | assistant, assistant => true
  | _, _ => false
  end.

Definition other (r : Role) : Role :=
  match r with user => assistant | assistant => user end.

Fixpoint alternates (expected : Role) (msgs : list Message) : bool :=
  match msgs with
  | [] => true
  | m :: rest => role_eqb (role m) expected && alternates (other expected) rest
  end.

(** The role expected after [msgs] when [expected] is expected before. *)
Definition expected_after (expected : Role) (msgs : list Message) : Role :=
  if Nat.even (List.length msgs) then expected else other expected.

(** Collaborators that behave as functions of their inputs: what a call
    answers does not depend on the state of the world. *)
Definition client_deterministic {W}
    (create : W -> Request -> (Response + PyExn) * W) : Prop :=
  forall w w' rq, fst (create w rq) = fst (create w' rq).

Definition executor_deterministic {W} (tool_manager : option (Executor W)) : Prop :=
  forall t, tool_manager = Some t ->
    forall w w' name input, fst (t w name input) = fst (t w' name input).

Definition init {W} (w : W) : St W := mkSt w [].

(** The parameters of the first Model Client call of [generate_response]. *)
Definition first_request (model query : string)
    (conversation_history : option string)
    (tools : option (list ToolSpec)) : Request :=
  add_tools tools
    (base_params model [mkMessage user (PlainText query)]
       (system_content conversation_history)).

Definition tool_triples (uses : list ToolUse) (outs : list (string + PyExn))
    : list (string * ToolInput * (string + PyExn)) :=
  map (fun '((_, name, input), out) => (name, input, out)) (combine uses outs).

(** ** The negotiation loop, as the traces it can leave *)

Section LoopTraces.

Variable model : string.
Variable system : string.
Variable tools : option (list ToolSpec).
Variable R : Z.

(** [LoopRun k response messages evs res]: entered at round [k] with the
    pending [response] and the transcript [messages], the loop appends
    [evs] to the log and ends with [res].  [LoopAbort] is the round cut
    short by an executor exception that is not caught. *)
Inductive LoopRun : Z -> Response -> list Message -> list Event -> Res string -> Prop :=
| LoopExit k resp msgs :
    R < k ->
    LoopRun k resp msgs [] (Val FALLBACK)
| LoopAbort k resp msgs done id name input left outs e :
    k <= R ->
    tool_uses (content resp) = done ++ (id, name, input) :: left ->
    List.length outs = List.length done ->
    escaping outs = None ->
    is_exception e = false ->
    LoopRun k resp msgs
      (tool_events done outs ++ [ToolCall name input (inr e)])
      (Exc e)
| LoopFinal k resp msgs outs out :
    k <= R ->
    List.length outs = List.length (tool_uses (content resp)) ->
    escaping outs = None ->
    tool_uses (content resp) = [] \/ R <= k ->
    LoopRun k resp msgs
      (tool_events (tool_uses (content resp)) outs ++
       [ModelCall
          (base_params model (round_messages msgs resp
                   (tool_results (tool_uses (content resp)) outs)) system)
          out])
      (answer out)
| LoopAnswer k resp msgs outs out :
    k < R ->
    List.length outs = List.length (tool_uses (content resp)) ->
    escaping outs = None ->
    tool_uses (content resp) <> [] ->
    (forall r, out = inl r -> stop_reason r <> "tool_use") ->
    LoopRun k resp msgs
      (tool_events (tool_uses (content resp)) outs ++
       [ModelCall
          (add_tools tools
             (base_params model (round_messages msgs resp
                      (tool_results (tool_uses (content resp)) outs)) system))
          out])
      (answer out)
| LoopNext k resp msgs outs resp' evs res :
    k < R ->
    List.length outs = List.length (tool_uses (content resp)) ->
    escaping outs = None ->
    tool_uses (content resp) <> [] ->
    stop_reason resp' = "tool_use" ->
    LoopRun (k + 1) resp'
      (round_messages msgs resp (tool_results (tool_uses (content resp)) outs))
      evs res ->
    LoopRun k resp msgs
      (tool_events (tool_uses (content resp)) outs ++
       ModelCall
         (add_tools tools
            (base_params model (round_messages msgs resp
                     (tool_results (tool_uses (content resp)) outs)) system))
         (inl resp') :: evs)
      res.

(** The source's test [not has_tool_calls or current_round >= max_rounds]. *)
Definition wraps_up (k : Z) (resp : Response) : bool :=
  negb (list_truthy (tool_uses (content resp))) || (k >=? R).

(** Two consecutive Model Client calls of the loop, the second issued in
    round [k]; [rest] are the calls after it. *)
Definition Step (k : Z) (rd rd' : Round) (rest : list Round) : Prop :=
  exists resp outs,
    rd_outcome rd = inl resp /\
    k <= R /\
    List.length outs = List.length (tool_uses (content resp)) /\
    escaping outs = None /\
    rd_tools rd = tool_triples (tool_uses (content resp)) outs /\
    rd_request rd' =
      (if wraps_up k resp then fun p => p else add_tools tools)
        (base_params model (round_messages (rq_messages (rd_request rd)) resp
                 (tool_results (tool_uses (content resp)) outs)) system) /\
    (wraps_up k resp = true -> rest = []) /\
    (rest <> [] -> exists r, rd_outcome rd' = inl r /\ stop_reason r = "tool_use").

(** The calls of a loop trace, the first of them issued before round
    [k]: consecutive calls are a [Step]; the last call is followed by no
    executor call, or by those of a round cut short. *)
Fixpoint rounds_wf (k : Z) (l : list Round) : Prop :=
  match l with
  | [] => True
  | rd :: tl =>
      match tl with
      | [] =>
          rd_tools rd = [] \/
          exists resp outs e,
            rd_outcome rd = inl resp /\
            rd_tools rd = tool_triples (tool_uses (content resp)) outs /\
            (List.length outs <= List.length (tool_uses (content resp)))%nat /\
            escaping outs = Some e
      | rd' :: rest => Step k rd rd' rest /\ rounds_wf (k + 1) tl
      end
  end.

End LoopTraces.

(** ** Scripted collaborators

    The test suite's mocks: [side_effect] lists that hand out one
    prepared outcome per call, shared by the client and the executor as
    one world. *)

Module Mock.

Record World := mkWorld {
  responses : list (Response + PyExn);
  tool_outcomes : list (string + PyExn)
}.

Definition StopIteration : PyExn := mkExn "StopIteration" EmptyString.

Definition create (w : World) (rq : Request) : (Response + PyExn) * World :=
  match responses w with
  | [] => (inr StopIteration, w)
  | out :: rest => (out, mkWorld rest (tool_outcomes w))
  end.

Definition tool_manager : Executor World :=
  fun w name input =>
    match tool_outcomes w with
    | [] => (inr StopIteration, w)
    | out :: rest => (out, mkWorld (responses w) rest)
    end.

Definition start (rs : list (Response + PyExn)) (ts : list (string + PyExn))
    : St World :=
  mkSt (mkWorld rs ts) [].

Definition test_tools : option (list ToolSpec) :=
  Some [mkToolSpec "test_tool_1" "Test tool 1" "{}";
        mkToolSpec "test_tool_2" "Test tool 2" "{}"].

Definition tool_block (id name : string) : ContentBlock :=
  ToolUseBlock id name [("param", "value")].

Definition wants_tool (id name : string) : Response :=
  mkResponse "tool_use" [tool_block id name].

Definition says (text : string) : Response :=
  mkResponse "end_turn" [TextBlock text].

(** [generate_response] with the mocked client and the class's model. *)
Definition run (query : string) (history : option string)
    (tools : option (list ToolSpec)) (tm : option (Executor World))
    (max_tool_rounds : Z) (s : St World) : Res string * St World :=
  generate_response create "test_model" query history tools tm
    max_tool_rounds s.

(** The scenarios of [tests/test_ai_generator.py]. *)

Definition single_tool_call : St World :=
  start [inl (wants_tool "tool_1_id" "test_tool_1");
         inl (says "Final response after tool use")]
        [inl "Tool execution result"].

Definition sequential_tool_calls : St World :=
  start [inl (wants_tool "tool_1_id" "test_tool_1");
         inl (wants_tool "tool_2_id" "test_tool_2");
         inl (says "Final response after sequential tool use")]
        [inl "Tool 1 result"; inl "Tool 2 result"].

Definition tool_execution_error : St World :=
  start [inl (wants_tool "tool_id" "test_tool_1");
         inl (says "Final response after error")]
        [inr (mkExn "Exception" "Test tool execution error")].

(** The executor is interrupted from the keyboard. *)
Definition tool_interrupted : St World :=
  start [inl (wants_tool "tool_id" "test_tool_1");
         inl (says "Final response after error")]
        [inr (mkExn "KeyboardInterrupt" EmptyString)].

(** The executor raises, and then the Model Client does. *)
Definition tool_error_then_client_error : St World :=
  start [inl (wants_tool "tool_id" "test_tool_1");
         inr (mkExn "APIConnectionError" "Connection error.")]
        [inr (mkExn "Exception" "Test tool execution error")].

Definition single_run : Res string * St World :=
  run "Test query with tool" None test_tools (Some tool_manager) 2
    single_tool_call.

Definition sequential_run : Res string * St World :=
  run "Test query with sequential tools" None test_tools (Some tool_manager) 2
    sequential_tool_calls.

Definition error_run : Res string * St World :=
  run "Test query with tool error" None test_tools (Some tool_manager) 2
    tool_execution_error.

Definition interrupted_run : Res string * St World :=
  run "Test query with tool error" None test_tools (Some tool_manager) 2
    tool_interrupted.

Definition failing_run : Res string * St World :=
  run "Test query with tool error" None test_tools (Some tool_manager) 2
    tool_error_then_client_error.

(** The two Model Client calls of [single_run] and the first one of
    [error_run], as rounds of the log. *)
Definition single_round0 : Round :=
  mkRound (first_request "test_model" "Test query with tool" None test_tools)
    (inl (wants_tool "tool_1_id" "test_tool_1"))
    [("test_tool_1", [("param", "value")], inl "Tool execution result")].

Definition single_round1 : Round :=
  mkRound
    (add_tools test_tools
       (base_params "test_model"
          [mkMessage user (PlainText "Test query with tool");
           mkMessage assistant (Blocks [tool_block "tool_1_id" "test_tool_1"]);
           mkMessage user
             (Results [mkToolResult "tool_1_id" "Tool execution result"])]
          SYSTEM_PROMPT))
    (inl (says "Final response after tool use"))
    [].


(** A direct answer, asked for with an empty history string. *)
Definition empty_history_run : Res string * St World :=
  run "Test query" (Some EmptyString) None None 2
    (start [inl (says "Test response")] []).

(** Collaborators with a call counter as their state, whose answers
    depend on their inputs only. *)
Definition counting_create (n : nat) (rq : Request) : (Response + PyExn) * nat :=
  (inl (if (List.length (rq_messages rq) <? 3)%nat
        then wants_tool "tool_1_id" "test_tool_1"
        else says "Final response after tool use"),
   S n).

Definition counting_tool_manager : Executor nat :=
  fun n name input => (inl ("Result of " ++ name)%string, S n).

End Mock.

(** ** Further scenarios *)

Module Scenario.

(** The second Model Client call of [Mock.failing_run], the one that
    raises. *)
Definition failing_request : Request :=
  add_tools Mock.test_tools
    (base_params "test_model"
       [mkMessage user (PlainText "Test query with tool error");
        mkMessage assistant (Blocks [Mock.tool_block "tool_id" "test_tool_1"]);
        mkMessage user
          (Results
             [mkToolResult "tool_id"
                "Error executing tool: Test tool execution error"])]
       SYSTEM_PROMPT).


(** A response that asks for two tools at once, after some text. *)
Definition two_tools_response : Response :=
  mkResponse "tool_use"
    [TextBlock "Looking this up.";
     Mock.tool_block "tool_1_id" "test_tool_1";
     Mock.tool_block "tool_2_id" "test_tool_2"].

Definition two_tools_run : Res string * St Mock.World :=
  Mock.run "Test query with two tools" None Mock.test_tools
    (Some Mock.tool_manager) 2
    (Mock.start [inl two_tools_response;
                 inl (Mock.says "Final response after two tools")]
                [inl "Tool 1 result"; inl "Tool 2 result"]).



(** A response that ends the turn without any content block. *)
Definition empty_response : Response := mkResponse "end_turn" [].

Definition empty_content_run : Res string * St Mock.World :=
  Mock.run "Test query" None None None 2 (Mock.start [inl empty_response] []).


End Scenario.

(** * Properties *)

Section Properties.

Variable W : Type.
Variable create : W -> Request -> (Response + PyExn) * W.
Variable model : string.

Local Abbreviation base := (base_params model).

(** ** The tool-execution loop of one round *)

Lemma escaping_app outs1 outs2 :
  escaping outs1 = None ->
  escaping (outs1 ++ outs2) = escaping outs2.
Proof.
  induction outs1 as [|[r|e] outs1 IH]; cbn; auto.
  destruct (is_exception e); [auto | discriminate].
Qed.

(** The outcomes of [invoke_all]: one per tool use and all of them
    caught, or the tool uses up to one whose exception is not caught. *)
Lemma invoke_all_cases (tm : Executor W) uses :
  forall w,
    (escaping (fst (invoke_all tm w uses)) = None /\
     List.length (fst (invoke_all tm w uses)) = List.length uses) \/
    (exists done id name input left outs e,
       uses = done ++ (id, name, input) :: left /\
       fst (invoke_all tm w uses) = outs ++ [inr e] /\
       List.length outs = List.length done /\
       escaping outs = None /\
       is_exception e = false).
Proof.
  induction uses as [|[[id name] input] rest IH]; intros w; cbn [invoke_all].
  - left. split; reflexivity.
  - destruct (tm w name input) as [out w1].
    destruct (escapes out) eqn:Eo.
    + right. destruct out as [r|e]; [discriminate|]. cbn in Eo.
      apply negb_true_iff in Eo.
      exists [], id, name, input, rest, [], e. repeat split; auto.
    + specialize (IH w1). destruct (invoke_all tm w1 rest) as [outs w2].
      cbn [fst] in *.
      assert (Hesc : forall l, escaping (out :: l) = escaping l).
      { intros l. destruct out as [r|e]; cbn; auto. cbn in Eo.
        apply negb_false_iff in Eo. now rewrite Eo. }
      destruct IH as [[He Hl]|(done & i & n & a & left & outs' & e & Hu & Ho & Hl & He & Hx)].
      * left. rewrite Hesc. split; [exact He | cbn; congruence].
      * right. exists ((id, name, input) :: done), i, n, a, left, (out :: outs'), e.
        rewrite Hu, Ho, Hesc. repeat split; auto. cbn. congruence.
Qed.

Lemma escaping_last outs e :
  escaping outs = None -> is_exception e = false ->
  escaping (outs ++ [inr e]) = Some e.
Proof.
  intros He Hx. rewrite (@escaping_app outs [inr e] He). cbn. now rewrite Hx.
Qed.

(** The [for] loop invokes the executor for the tool uses in order; it
    returns one result per tool use, in order, unless an invocation raises
    an exception that is not caught, which ends it there. *)
Lemma run_tool_calls_spec (tm : Executor W) blocks :
  forall acc b s,
    run_tool_calls tm blocks acc b s =
    (match escaping (fst (invoke_all tm (world s) (tool_uses blocks))) with
     | Some e => Exc e
     | None =>
         Val (acc ++ tool_results (tool_uses blocks)
                       (fst (invoke_all tm (world s) (tool_uses blocks))),
              b || list_truthy (tool_uses blocks))
     end,
     mkSt (snd (invoke_all tm (world s) (tool_uses blocks)))
          (calls s ++ tool_events (tool_uses blocks)
                        (fst (invoke_all tm (world s) (tool_uses blocks))))).
Proof.
  induction blocks as [|blk rest IH]; intros acc b s.
  - simpl. unfold ret. rewrite !app_nil_r, orb_false_r. now destruct s.
  - destruct blk as [text|id name input].
    + simpl. apply IH.
    + cbn [run_tool_calls tool_uses invoke_all].
      unfold bind, try_except, execute_tool.
      destruct (tm (world s) name input) as [out w1] eqn:E.
      destruct out as [r|e]; cbn [of_outcome escapes]; cbv beta iota.
      * unfold ret. rewrite IH. cbn [world calls].
        destruct (invoke_all tm w1 (tool_uses rest)) as [outs w2].
        cbn [fst snd tool_results tool_events combine map outcome_text
             list_truthy escaping].
        rewrite <- !app_assoc, orb_true_r. reflexivity.
      * destruct (is_exception e) eqn:Ex; cbn [negb].
        -- unfold ret. rewrite IH. cbn [world calls].
           destruct (invoke_all tm w1 (tool_uses rest)) as [outs w2].
           cbn [fst snd tool_results tool_events combine map outcome_text
                list_truthy escaping].
           rewrite Ex, <- !app_assoc, orb_true_r. reflexivity.
        -- cbn [fst snd escaping]. rewrite Ex. unfold tool_events.
           cbn [combine map]. rewrite combine_nil. reflexivity.
Qed.





Lemma tool_triples_abort done u left outs out :
  List.length outs = List.length done ->
  tool_triples (done ++ u :: left) (outs ++ [out]) =
  tool_triples done outs ++
  [(fst (use_call u), snd (use_call u), out)].
Proof.
  unfold tool_triples. revert outs.
  induction done as [|[[i n] a] done IH]; intros [|o outs] H;
    try discriminate.
  - destruct u as [[i n] a]. cbn. now rewrite combine_nil.
  - cbn [app combine map List.length] in *. f_equal. apply IH. lia.
Qed.

Lemma tool_events_abort done u left outs out :
  List.length outs = List.length done ->
  tool_events (done ++ u :: left) (outs ++ [out]) =
  tool_events done outs ++
  [ToolCall (fst (use_call u)) (snd (use_call u)) out].
Proof.
  unfold tool_events. revert outs.
  induction done as [|[[i n] a] done IH]; intros [|o outs] H;
    try discriminate.
  - destruct u as [[i n] a]. cbn. now rewrite combine_nil.
  - cbn [app combine map List.length] in *. f_equal. apply IH. lia.
Qed.

(** ** Every run of the loop leaves one of its traces *)

Section LoopProofs.

Variable tm : Executor W.
Variable system : string.
Variable tools : option (list ToolSpec).
Variable R : Z.

Local Abbreviation LoopRun := (LoopRun model system tools R).
Local Abbreviation wraps_up := (wraps_up R).
Local Abbreviation Step := (Step model system tools R).
Local Abbreviation rounds_wf := (rounds_wf model system tools R).


Lemma content0_text_eq (r : Response) (s : St W) :
  content0_text r s = (text0 r, s).
Proof.
  unfold content0_text, text0. destruct (content r) as [|[t|i n a] l]; reflexivity.
Qed.

Lemma list_truthy_false {A} (l : list A) : list_truthy l = false <-> l = [].
Proof. destruct l; simpl; split; congruence. Qed.

Lemma tool_results_nil uses outs :
  List.length outs = List.length uses ->
  tool_results uses outs = [] <-> uses = [].
Proof.
  unfold tool_results.
  destruct uses as [|[[i n] a] us], outs as [|o os]; simpl; intros H;
    split; intros; congruence || discriminate.
Qed.

Lemma list_truthy_results uses outs :
  List.length outs = List.length uses ->
  list_truthy (tool_results uses outs) = list_truthy uses.
Proof.
  unfold tool_results.
  destruct uses as [|[[i n] a] us], outs as [|o os]; simpl; intros H;
    congruence || discriminate.
Qed.

(** With one unit of fuel per remaining round the loop never runs dry,
    and every run is a [LoopRun]. *)
Lemma tool_loop_run fuel :
  forall k resp msgs s,
    R - k + 1 <= Z.of_nat fuel ->
    exists evs res s',
      tool_loop create model tm system tools R fuel k resp msgs s = (res, s') /\
      calls s' = calls s ++ evs /\
      LoopRun k resp msgs evs res.
Proof.
  induction fuel as [|fuel IH]; intros k resp msgs s Hf.
  - exists [], (Val FALLBACK), s. simpl.
    destruct (k <=? R) eqn:E; [apply Z.leb_le in E; lia|].
    apply Z.leb_gt in E. rewrite app_nil_r.
    repeat split; auto. now constructor.
  - cbn [tool_loop].
    destruct (k <=? R) eqn:E.
    2:{ apply Z.leb_gt in E. exists [], (Val FALLBACK), s.
        rewrite app_nil_r. repeat split; auto. now constructor. }
    apply Z.leb_le in E.
    unfold bind at 1. rewrite run_tool_calls_spec.
    set (uses := tool_uses (content resp)).
    pose proof (invoke_all_cases tm uses (world s)) as Hcases.
    destruct (invoke_all tm (world s) uses) as [outs w1]. cbn [fst snd] in *.
    destruct Hcases as [[Hesc Hlen]
                       |(done & id & name & input & left & outs' & e &
                         Hu & Ho & Hl & He & Hx)].
    2:{ (* an executor exception that is not caught *)
        subst outs. rewrite (@escaping_last outs' e He Hx).
        exists (tool_events done outs' ++ [ToolCall name input (inr e)]),
          (Exc e), (mkSt w1 (calls s ++ tool_events uses (outs' ++ [inr e]))).
        split; [reflexivity|]. split.
        - cbn [calls]. f_equal. rewrite Hu.
          apply (@tool_events_abort done (id, name, input) left outs' (inr e) Hl).
        - eapply LoopAbort; eauto. }
    rewrite Hesc.
    cbn [app orb negb].
    rewrite (list_truthy_results _ _ Hlen).
    set (msgs' := if list_truthy uses then _ else _).
    assert (Hm : msgs' = round_messages msgs resp (tool_results uses outs)).
    { unfold msgs', round_messages. rewrite (list_truthy_results _ _ Hlen).
      destruct (list_truthy uses); [reflexivity | now rewrite app_nil_r]. }
    clearbody msgs'. subst msgs'.
    destruct (negb (list_truthy uses) || (k >=? R)) eqn:Efin.
    + (* wrap-up call without tools *)
      unfold bind, messages_create. cbn [world calls].
      destruct (create w1 _) as [out w2].
      eexists _, (answer out), _. split; [|split].
      * destruct out as [r|e]; simpl; [apply content0_text_eq | reflexivity].
      * cbn [calls]. destruct out; cbn [calls]; rewrite <- app_assoc; reflexivity.
      * apply LoopFinal; auto.
        apply orb_true_iff in Efin. destruct Efin as [Hn|Hk].
        -- left. apply negb_true_iff, list_truthy_false in Hn. exact Hn.
        -- right. apply Z.geb_le in Hk. lia.
    + apply orb_false_iff in Efin. destruct Efin as [Hn Hk].
      apply negb_false_iff in Hn.
      assert (Hne : uses <> []).
      { intros H0. rewrite H0 in Hn. discriminate. }
      assert (HkR : k < R).
      { rewrite Z.geb_leb in Hk. apply Z.leb_gt in Hk. lia. }
      unfold bind at 1. unfold messages_create at 1. cbn [world calls].
      destruct (create w1 _) as [out w2].
      destruct out as [r|e]; cbn [of_outcome].
      * destruct (stop_reason r =? "tool_use")%string eqn:Es; cbn [negb].
        -- apply String.eqb_eq in Es.
           destruct (IH (k + 1) r (round_messages msgs resp (tool_results uses outs))
                        (mkSt w2 ((calls s ++ tool_events uses outs) ++
                                  [ModelCall (add_tools tools
                                     (base (round_messages msgs resp
                                        (tool_results uses outs)) system)) (inl r)])))
             as (evs & res & s' & Hrun & Hcalls & HL); [lia|].
           exists (tool_events uses outs ++ ModelCall (add_tools tools
                     (base (round_messages msgs resp (tool_results uses outs)) system))
                     (inl r) :: evs), res, s'.
           split; [exact Hrun|]. split.
           ++ rewrite Hcalls. cbn [calls]. rewrite <- !app_assoc. reflexivity.
           ++ apply LoopNext; auto.
        -- apply String.eqb_neq in Es.
           eexists _, (answer (inl r)), _. split; [apply content0_text_eq|]. split.
           ++ cbn [calls]. rewrite <- app_assoc. reflexivity.
           ++ apply LoopAnswer; auto. intros r' Hr'. inversion Hr'. subst. exact Es.
      * eexists _, (answer (inr e)), _. split; [reflexivity|]. split.
        -- cbn [calls]. rewrite <- app_assoc. reflexivity.
        -- apply LoopAnswer; auto. intros r' Hr'. discriminate.
Qed.


(** ** The rounds of a loop trace *)


Lemma leading_tool_events uses outs rest :
  leading_tool_calls (tool_events uses outs ++ rest) =
  tool_triples uses outs ++ leading_tool_calls rest.
Proof.
  unfold tool_events, tool_triples.
  induction (combine uses outs) as [|[[[i n] a] o] l IH]; simpl; congruence.
Qed.

Lemma rounds_of_tool_events uses outs rest :
  rounds_of (tool_events uses outs ++ rest) = rounds_of rest.
Proof.
  unfold tool_events.
  induction (combine uses outs) as [|[[[i n] a] o] l IH]; simpl; congruence.
Qed.


Lemma rq_messages_add_tools t p : rq_messages (add_tools t p) = rq_messages p.
Proof. unfold add_tools. now destruct (tools_truthy t). Qed.

Lemma rq_system_add_tools t p : rq_system (add_tools t p) = rq_system p.
Proof. unfold add_tools. now destruct (tools_truthy t). Qed.

Lemma wraps_up_true k resp :
  wraps_up k resp = true <-> tool_uses (content resp) = [] \/ R <= k.
Proof.
  unfold wraps_up. rewrite orb_true_iff, negb_true_iff, list_truthy_false.
  rewrite Z.geb_le. reflexivity.
Qed.

Lemma wraps_up_false k resp :
  wraps_up k resp = false <-> tool_uses (content resp) <> [] /\ k < R.
Proof.
  split.
  - intros H. split.
    + intros E. assert (wraps_up k resp = true) by (apply wraps_up_true; auto).
      congruence.
    + destruct (Z.lt_ge_cases k R); auto.
      assert (wraps_up k resp = true) by (apply wraps_up_true; auto). congruence.
  - intros [Hu Hk]. destruct (wraps_up k resp) eqn:E; auto.
    apply wraps_up_true in E. destruct E; [contradiction | lia].
Qed.

Lemma loop_rounds k resp msgs evs res :
  LoopRun k resp msgs evs res ->
  forall rq0, rq_messages rq0 = msgs ->
    rounds_wf k (rounds_of (ModelCall rq0 (inl resp) :: evs)).
Proof.
  induction 1 as [k resp msgs Hk
                 |k resp msgs done id name input left outs e Hk Hu Hlen Hesc Hx
                 |k resp msgs outs out Hk Hlen Hesc Hfin
                 |k resp msgs outs out Hk Hlen Hesc Hne Hstop
                 |k resp msgs outs resp' evs res Hk Hlen Hesc Hne Hstop Hrun IH];
    intros rq0 Hrq0; cbn [rounds_of].
  - cbn; auto.
  - rewrite rounds_of_tool_events, leading_tool_events.
    cbn [rounds_of leading_tool_calls rounds_wf rd_tools rd_outcome].
    right. exists resp, (outs ++ [inr e]), e. split; [reflexivity|].
    split; [|split].
    + rewrite Hu. symmetry.
      exact (@tool_triples_abort done (id, name, input) left outs (inr e) Hlen).
    + rewrite Hu, !length_app. cbn. lia.
    + apply (@escaping_last outs e Hesc Hx).
  - rewrite rounds_of_tool_events, leading_tool_events. cbn [rounds_of leading_tool_calls].
    rewrite app_nil_r. cbn [rounds_wf]. split; [|cbn; auto].
    exists resp, outs. cbn [rd_outcome rd_tools rd_request].
    assert (Hw : wraps_up k resp = true) by (apply wraps_up_true; auto).
    rewrite Hw, Hrq0. repeat split; auto. congruence.
  - rewrite rounds_of_tool_events, leading_tool_events. cbn [rounds_of leading_tool_calls].
    rewrite app_nil_r. cbn [rounds_wf]. split; [|cbn; auto].
    exists resp, outs. cbn [rd_outcome rd_tools rd_request].
    assert (Hw : wraps_up k resp = false) by (apply wraps_up_false; auto).
    rewrite Hw, Hrq0. repeat split; auto; try lia; congruence.
  - rewrite rounds_of_tool_events, leading_tool_events.
    specialize (IH (add_tools tools
      (base (round_messages msgs resp
               (tool_results (tool_uses (content resp)) outs)) system))
      (rq_messages_add_tools _ _)).
    cbn [rounds_of leading_tool_calls] in *. rewrite app_nil_r.
    cbn [rounds_wf]. split; [|exact IH].
    exists resp, outs. cbn [rd_outcome rd_tools rd_request].
    assert (Hw : wraps_up k resp = false) by (apply wraps_up_false; auto).
    rewrite Hw, Hrq0. repeat split; auto; try lia; try congruence.
    intros _. exists resp'. auto.
Qed.

(** Each iteration that starts issues one Model Client call, and the
    result is what the last call answered. *)
Lemma loop_calls_bounded k resp msgs evs res :
  LoopRun k resp msgs evs res ->
  Z.of_nat (List.length (rounds_of evs)) <= Z.max 0 (R - k + 1).
Proof.
  induction 1; rewrite ?rounds_of_tool_events; cbn [rounds_of List.length]; lia.
Qed.

Lemma loop_result k resp msgs evs res :
  LoopRun k resp msgs evs res ->
  k <= R ->
  (exists pre rq out, evs = pre ++ [ModelCall rq out] /\ res = answer out) \/
  (exists pre name input e,
     evs = pre ++ [ToolCall name input (inr e)] /\
     is_exception e = false /\ res = Exc e).
Proof.
  induction 1 as [k resp msgs Hk
                 |k resp msgs done id name input left outs e Hk Hu Hlen Hesc Hx
                 |k resp msgs outs out Hk Hlen Hesc Hfin
                 |k resp msgs outs out Hk Hlen Hesc Hne Hstop
                 |k resp msgs outs resp' evs res Hk Hlen Hesc Hne Hstop Hrun IH];
    intros HkR.
  - lia.
  - right. eauto 7.
  - left. eauto.
  - left. eauto.
  - destruct IH as [(pre & rq & out & -> & ->)|(pre & n & i & e & -> & Hx & ->)];
      [lia | left | right].
    + eexists (_ ++ _ :: pre), rq, out. split; [|reflexivity].
      rewrite <- app_assoc. reflexivity.
    + eexists (_ ++ _ :: pre), n, i, e. split; [|auto].
      rewrite <- app_assoc. reflexivity.
Qed.



Lemma loop_systems k resp msgs evs res :
  LoopRun k resp msgs evs res ->
  Forall (fun rq => rq_system rq = system) (model_requests evs).
Proof.
  unfold model_requests.
  induction 1; rewrite ?rounds_of_tool_events; cbn [rounds_of map rd_request];
    repeat constructor; rewrite ?rq_system_add_tools; auto.
Qed.

End LoopProofs.

(** ** Runs of [generate_response] *)

Section Runs.

Variable query : string.
Variable history : option string.
Variable tools : option (list ToolSpec).
Variable R : Z.

Local Abbreviation rq0 := (first_request model query history tools).
Local Abbreviation run := (generate_response create model query history tools).

(** The direct return: no executor, or no tool-use stop reason, or a
    failed first call. *)
Lemma generate_direct tm w out w1 :
  create w rq0 = (out, w1) ->
  (forall resp t, out = inl resp -> tm = Some t -> stop_reason resp <> "tool_use") ->
  run tm R (init w) = (answer out, mkSt w1 [ModelCall rq0 out]).
Proof.
  intros Hc Hno. unfold generate_response, bind, messages_create.
  fold rq0. cbn [init world calls]. rewrite Hc. cbn [app].
  destruct out as [resp|e]; cbn [of_outcome answer]; [|reflexivity].
  destruct (stop_reason resp =? "tool_use")%string eqn:E.
  - destruct tm as [t|]; [|apply content0_text_eq].
    apply String.eqb_eq in E. now destruct (Hno resp t eq_refl eq_refl).
  - apply content0_text_eq.
Qed.

(** The negotiation: the loop runs from round 1 on the first response. *)
Lemma generate_loop t w resp w1 :
  create w rq0 = (inl resp, w1) ->
  stop_reason resp = "tool_use" ->
  run (Some t) R (init w) =
    _handle_tool_execution create model resp rq0 t tools R
      (mkSt w1 [ModelCall rq0 (inl resp)]) /\
  exists evs res s',
    run (Some t) R (init w) = (res, s') /\
    calls s' = ModelCall rq0 (inl resp) :: evs /\
    LoopRun model (system_content history) tools R 1 resp
      [mkMessage user (PlainText query)] evs res.
Proof.
  intros Hc Hs.
  assert (E : run (Some t) R (init w) =
    _handle_tool_execution create model resp rq0 t tools R
      (mkSt w1 [ModelCall rq0 (inl resp)])).
  { unfold generate_response, bind, messages_create.
    fold rq0. cbn [init world calls]. rewrite Hc. cbn [app of_outcome].
    apply String.eqb_eq in Hs. rewrite Hs. reflexivity. }
  split; [exact E|]. rewrite E. unfold _handle_tool_execution.
  destruct (tool_loop_run t (rq_system rq0) tools R (Z.to_nat R) 1 resp
              (rq_messages rq0) (mkSt w1 [ModelCall rq0 (inl resp)]))
    as (evs & res & s' & Hrun & Hcalls & HL); [lia|].
  exists evs, res, s'. split; [exact Hrun|]. split; [exact Hcalls|].
  unfold first_request in HL.
  rewrite rq_messages_add_tools, rq_system_add_tools in HL. exact HL.
Qed.

(** Every run is one of the two. *)
Lemma generate_cases tm w :
  exists out evs res s',
    run tm R (init w) = (res, s') /\
    calls s' = ModelCall rq0 out :: evs /\
    ((evs = [] /\ res = answer out) \/
     (exists resp t, out = inl resp /\ tm = Some t /\
        stop_reason resp = "tool_use" /\
        LoopRun model (system_content history) tools R 1 resp
          [mkMessage user (PlainText query)] evs res)).
Proof.
  destruct (create w rq0) as [out w1] eqn:Hc.
  destruct out as [resp|e].
  - destruct (String.eqb_spec (stop_reason resp) "tool_use") as [Hs|Hs].
    + destruct tm as [t|].
      * destruct (@generate_loop t w _ _ Hc Hs) as (_ & evs & res & s' & Hr & Hl & HL).
        exists (inl resp), evs, res, s'. repeat split; auto.
        right. exists resp, t. auto.
      * eexists (inl resp), [], _, _. split.
        -- apply (@generate_direct None w _ _ Hc). intros; discriminate.
        -- auto.
    + eexists (inl resp), [], _, _. split.
      * apply (@generate_direct tm w _ _ Hc). intros r t Hr _. inversion Hr. now subst.
      * auto.
  - eexists (inr e), [], _, _. split.
    + apply (@generate_direct tm w _ _ Hc). intros; discriminate.
    + auto.
Qed.

Lemma generate_rounds_wf tm w :
  rounds_wf model (system_content history) tools R 1
    (rounds_of (calls (snd (run tm R (init w))))).
Proof.
  destruct (generate_cases tm w) as (out & evs & res & s' & Hr & Hl & Hc).
  rewrite Hr. cbn [snd]. rewrite Hl.
  destruct Hc as [[-> _]|(resp & t & -> & _ & _ & HL)].
  - cbn; auto.
  - apply (loop_rounds HL). unfold first_request.
    apply rq_messages_add_tools.
Qed.

End Runs.

Lemma rounds_wf_nth system tools R l :
  forall k i rd rd',
    rounds_wf model system tools R k l ->
    nth_error l i = Some rd ->
    nth_error l (S i) = Some rd' ->
    Step model system tools R (k + Z.of_nat i) rd rd' (skipn (S (S i)) l).
Proof.
  induction l as [|a l IH]; intros k i rd rd' Hwf Hi Hsi.
  - destruct i; discriminate.
  - destruct i as [|i].
    + destruct l as [|b l]; [discriminate|].
      cbn in Hi, Hsi. inversion Hi; inversion Hsi; subst.
      destruct Hwf as [Hstep _]. rewrite Z.add_0_r. exact Hstep.
    + destruct l as [|b l]; [destruct i; discriminate|].
      destruct Hwf as [_ Hwf].
      replace (k + Z.of_nat (S i)) with ((k + 1) + Z.of_nat i) by lia.
      apply (IH (k + 1) i rd rd' Hwf); assumption.
Qed.

Lemma skipn_nil_length {A} (l : list A) n :
  skipn n l = [] -> (List.length l <= n)%nat.
Proof.
  intros H. pose proof (length_skipn n l) as E. rewrite H in E. simpl in E. lia.
Qed.

(** ** Lists of tool uses, outcomes and results *)











(** ** Alternating roles *)

Lemma other_involutive r : other (other r) = r.
Proof. now destruct r. Qed.

Lemma alternates_app l1 : forall expected l2,
  alternates expected (l1 ++ l2) =
  alternates expected l1 && alternates (expected_after expected l1) l2.
Proof.
  unfold expected_after.
  induction l1 as [|m l1 IH]; intros expected l2; [reflexivity|].
  cbn [app alternates List.length]. rewrite IH, Nat.even_succ, <- Nat.negb_even.
  destruct (Nat.even (List.length l1)); cbn [negb];
    rewrite ?other_involutive, andb_assoc; reflexivity.
Qed.

Lemma alternates_firstn msgs : forall expected n,
  alternates expected msgs = true ->
  alternates expected (firstn n msgs) = true.
Proof.
  induction msgs as [|m msgs IH]; intros expected [|n] H; auto.
  cbn [firstn alternates] in *. apply andb_true_iff in H. destruct H as [H1 H2].
  rewrite H1. cbn. now apply IH.
Qed.

Lemma role_eqb_eq a b : role_eqb a b = true <-> a = b.
Proof. destruct a, b; simpl; split; congruence. Qed.

(** Along an alternating transcript no two neighbours share a role. *)
Lemma alternates_adjacent msgs : forall expected j m m',
  alternates expected msgs = true ->
  nth_error msgs j = Some m ->
  nth_error msgs (S j) = Some m' ->
  role m <> role m'.
Proof.
  induction msgs as [|a msgs IH]; intros expected j m m' H Hj Hsj.
  - destruct j; discriminate.
  - cbn [alternates] in H. apply andb_true_iff in H. destruct H as [Ha Hrest].
    destruct j as [|j].
    + destruct msgs as [|b msgs]; [discriminate|].
      cbn in Hj, Hsj. inversion Hj; inversion Hsj; subst.
      cbn [alternates] in Hrest. apply andb_true_iff in Hrest.
      destruct Hrest as [Hb _].
      apply role_eqb_eq in Ha, Hb. rewrite Ha, Hb. now destruct expected.
    + apply (IH (other expected) j m m' Hrest); assumption.
Qed.

Lemma round_messages_alternate msgs resp trs :
  alternates user msgs = true ->
  Nat.odd (List.length msgs) = true ->
  alternates user (round_messages msgs resp trs) = true /\
  (trs <> [] -> Nat.odd (List.length (round_messages msgs resp trs)) = true).
Proof.
  intros Ha Ho. unfold round_messages.
  assert (He : Nat.even (List.length msgs) = false).
  { rewrite <- Nat.negb_odd, Ho. reflexivity. }
  split.
  - rewrite !alternates_app, Ha. unfold expected_after.
    rewrite length_app, He. cbn [List.length].
    replace (List.length msgs + 1)%nat with (S (List.length msgs)) by lia.
    rewrite Nat.even_succ, Ho. cbn.
    destruct (list_truthy trs); reflexivity.
  - intros Hne. destruct trs; [contradiction|]. cbn [list_truthy].
    rewrite !length_app. cbn [List.length].
    replace (List.length msgs + 1 + 1)%nat with (S (S (List.length msgs))) by lia.
    now rewrite Nat.odd_succ, Nat.even_succ.
Qed.

Lemma round_messages_nonempty msgs resp trs :
  round_messages msgs resp trs <> [].
Proof.
  unfold round_messages. intros E.
  apply app_eq_nil in E. destruct E as [E _].
  apply app_eq_nil in E. destruct E as [_ E]. discriminate.
Qed.

Lemma loop_alternates system tools R k resp msgs evs res :
  LoopRun model system tools R k resp msgs evs res ->
  alternates user msgs = true ->
  Nat.odd (List.length msgs) = true ->
  Forall (fun rq => alternates user (rq_messages rq) = true /\
                    rq_messages rq <> [])
    (model_requests evs).
Proof.
  unfold model_requests.
  induction 1 as [k resp msgs Hk
                 |k resp msgs done id name input left outs e Hk Hu Hlen Hesc Hx
                 |k resp msgs outs out Hk Hlen Hesc Hfin
                 |k resp msgs outs out Hk Hlen Hesc Hne Hstop
                 |k resp msgs outs resp' evs res Hk Hlen Hesc Hne Hstop Hrun IH];
    intros Ha Ho; rewrite ?rounds_of_tool_events; cbn [rounds_of map rd_request].
  - constructor.
  - constructor.
  - repeat constructor; cbn [rq_messages base_params].
    + now apply round_messages_alternate.
    + apply round_messages_nonempty.
  - repeat constructor; rewrite rq_messages_add_tools; cbn [rq_messages base_params].
    + now apply round_messages_alternate.
    + apply round_messages_nonempty.
  - destruct (@round_messages_alternate msgs resp
                (tool_results (tool_uses (content resp)) outs) Ha Ho) as [Ha' Ho'].
    constructor.
    + rewrite rq_messages_add_tools. split; [exact Ha'|].
      apply round_messages_nonempty.
    + apply IH; auto. apply Ho'.
      intros E. apply tool_results_nil in E; auto.
Qed.

(** ** Collaborators that answer by their inputs alone *)

Lemma invoke_all_det (t : Executor W) uses :
  (forall w w' name input, fst (t w name input) = fst (t w' name input)) ->
  forall w w', fst (invoke_all t w uses) = fst (invoke_all t w' uses).
Proof.
  intros Hd. induction uses as [|[[i n] a] us IH]; intros w w'; [reflexivity|].
  cbn [invoke_all]. pose proof (Hd w w' n a) as E.
  destruct (t w n a) as [o1 w1], (t w' n a) as [o2 w2]. cbn [fst] in E. subst o2.
  destruct (escapes o1); [reflexivity|].
  specialize (IH w1 w2).
  destruct (invoke_all t w1 us) as [os1 v1], (invoke_all t w2 us) as [os2 v2].
  cbn [fst] in *. congruence.
Qed.

(** One iteration of the loop, spelled out. *)
Lemma tool_loop_step (t : Executor W) system tools R fuel k resp msgs s :
  k <= R ->
  tool_loop create model t system tools R (S fuel) k resp msgs s =
  let uses := tool_uses (content resp) in
  let io := invoke_all t (world s) uses in
  let msgs' := round_messages msgs resp (tool_results uses (fst io)) in
  let log := calls s ++ tool_events uses (fst io) in
  match escaping (fst io) with
  | Some e => (Exc e, mkSt (snd io) log)
  | None =>
      if wraps_up R k resp then
        let rq := base msgs' system in
        (answer (fst (create (snd io) rq)),
         mkSt (snd (create (snd io) rq))
              (log ++ [ModelCall rq (fst (create (snd io) rq))]))
      else
        let rq := add_tools tools (base msgs' system) in
        let s2 := mkSt (snd (create (snd io) rq))
                       (log ++ [ModelCall rq (fst (create (snd io) rq))]) in
        match fst (create (snd io) rq) with
        | inl r =>
            if (stop_reason r =? "tool_use")%string
            then tool_loop create model t system tools R fuel (k + 1) r msgs' s2
            else (text0 r, s2)
        | inr e => (Exc e, s2)
        end
  end.
Proof.
  intros Hk. cbn [tool_loop]. apply Z.leb_le in Hk. rewrite Hk.
  unfold bind at 1. rewrite run_tool_calls_spec.
  set (uses := tool_uses (content resp)).
  pose proof (invoke_all_cases t uses (world s)) as Hcases.
  destruct (invoke_all t (world s) uses) as [outs w1]. cbn [fst snd] in *.
  cbv zeta.
  destruct Hcases as [[Hesc Hlen]
                     |(done & id & name & input & left & outs' & e &
                       Hu & Ho & Hl & He & Hx)].
  2:{ subst outs. rewrite (@escaping_last outs' e He Hx). reflexivity. }
  rewrite Hesc.
  cbn [app orb negb].
  rewrite (list_truthy_results _ _ Hlen).
  set (msgs' := if list_truthy uses then _ else _).
  assert (Hm : msgs' = round_messages msgs resp (tool_results uses outs)).
  { unfold msgs', round_messages. rewrite (list_truthy_results _ _ Hlen).
    destruct (list_truthy uses); [reflexivity | now rewrite app_nil_r]. }
  clearbody msgs'. subst msgs'.
  unfold wraps_up. fold uses.
  destruct (negb (list_truthy uses) || (k >=? R)).
  - unfold bind, messages_create. cbn [world calls].
    destruct (create w1 _) as [out w2]. cbn [fst snd].
    destruct out as [r|e]; cbn [of_outcome answer];
      rewrite ?content0_text_eq; reflexivity.
  - unfold bind at 1. unfold messages_create at 1. cbn [world calls].
    destruct (create w1 _) as [out w2]. cbn [fst snd].
    destruct out as [r|e]; cbn [of_outcome]; [|reflexivity].
    destruct (stop_reason r =? "tool_use")%string; cbn [negb];
      rewrite ?content0_text_eq; reflexivity.
Qed.

Lemma tool_loop_det (t : Executor W) system tools R fuel :
  client_deterministic create ->
  (forall w w' name input, fst (t w name input) = fst (t w' name input)) ->
  forall k resp msgs s1 s2,
    calls s1 = calls s2 ->
    fst (tool_loop create model t system tools R fuel k resp msgs s1) =
    fst (tool_loop create model t system tools R fuel k resp msgs s2) /\
    calls (snd (tool_loop create model t system tools R fuel k resp msgs s1)) =
    calls (snd (tool_loop create model t system tools R fuel k resp msgs s2)).
Proof.
  intros Hc Ht. induction fuel as [|fuel IH]; intros k resp msgs s1 s2 Hs.
  - cbn [tool_loop]. destruct (k <=? R); split; auto.
  - destruct (Z.le_gt_cases k R) as [Hk|Hk].
    2:{ cbn [tool_loop]. apply Z.leb_gt in Hk. rewrite Hk. split; auto. }
    rewrite !tool_loop_step by exact Hk. cbv zeta.
    rewrite (@invoke_all_det t (tool_uses (content resp)) Ht (world s1) (world s2)), Hs.
    set (outs := fst (invoke_all t (world s2) (tool_uses (content resp)))).
    set (v1 := snd (invoke_all t (world s1) (tool_uses (content resp)))).
    set (v2 := snd (invoke_all t (world s2) (tool_uses (content resp)))).
    clearbody v1 v2 outs.
    destruct (escaping outs); [split; reflexivity|].
    destruct (wraps_up R k resp).
    + cbn [fst snd calls]. now rewrite (Hc v1 v2).
    + rewrite (Hc v1 v2).
      destruct (fst (create v2 _)) as [r|e]; [|split; reflexivity].
      destruct (stop_reason r =? "tool_use")%string; [|split; reflexivity].
      apply IH. reflexivity.
Qed.

(** ** The fuel suffices *)

Lemma answer_not_out_of_fuel out : answer out <> OutOfFuel.
Proof.
  destruct out as [r|e]; cbn; [|discriminate].
  unfold text0. destruct (content r) as [|[t|i n a] l]; discriminate.
Qed.

Lemma loop_run_returns system tools R k resp msgs evs res :
  LoopRun model system tools R k resp msgs evs res -> res <> OutOfFuel.
Proof.
  induction 1; auto using answer_not_out_of_fuel; discriminate.
Qed.

(** [generate_response] always ends, with a value or an exception: the
    fuel given to the loop, one unit per permitted round, never runs out. *)
Lemma generate_response_terminates query history tools tm R w :
  fst (generate_response create model query history tools tm R (init w))
    <> OutOfFuel.
Proof.
  destruct (generate_cases query history tools R tm w)
    as (out & evs & res & s' & Hr & Hl & Hc).
  rewrite Hr. cbn [fst].
  destruct Hc as [[_ ->]|(resp & t & _ & _ & _ & HL)].
  - apply answer_not_out_of_fuel.
  - apply (loop_run_returns HL).
Qed.




(** ** Claims *)

(** C1. With [max_tool_rounds = R >= 1], a tool-use first response and a
    tool manager, [generate_response] makes at most [R + 1] Model Client
    calls; and the call issued in a round that has exhausted the rounds,
    or whose response held no tool use, has neither [tools] nor
    [tool_choice] and is the last call of the run. *)
Theorem model_calls_bounded query history tools (tm : Executor W) R w resp w1 :
  1 <= R ->
  create w (first_request model query history tools) = (inl resp, w1) ->
  stop_reason resp = "tool_use" ->
  let log :=
    calls (snd (generate_response create model query history tools (Some tm) R
                  (init w))) in
  Z.of_nat (List.length (model_requests log)) <= R + 1 /\
  forall i rd rd',
    nth_error (rounds_of log) i = Some rd ->
    nth_error (rounds_of log) (S i) = Some rd' ->
    (R <= Z.of_nat (S i) \/
     exists r, rd_outcome rd = inl r /\ tool_uses (content r) = []) ->
    rq_tools (rd_request rd') = None /\
    rq_tool_choice (rd_request rd') = None /\
    List.length (rounds_of log) = S (S i).
Proof.
  intros HR Hc Hs log.
  pose proof (generate_rounds_wf query history tools R (Some tm) w) as Hwf.
  fold log in Hwf.
  destruct (@generate_loop query history tools R tm w _ _ Hc Hs)
    as (_ & evs & res & s' & Hr & Hl & HL).
  assert (Hlog : log = ModelCall (first_request model query history tools) (inl resp) :: evs).
  { unfold log. rewrite Hr. exact Hl. }
  split.
  - unfold model_requests. rewrite length_map, Hlog. cbn [rounds_of List.length].
    pose proof (loop_calls_bounded HL). lia.
  - intros i rd rd' Hi Hsi Hfin.
    destruct (@rounds_wf_nth _ _ _ _ _ _ _ _ Hwf Hi Hsi)
      as (r & outs & Hout & Hk & Hlen & Hesc & Htools & Hrq & Hlast & _).
    assert (Hw : wraps_up R (1 + Z.of_nat i) r = true).
    { apply wraps_up_true. destruct Hfin as [H|(r' & Hr' & Hu)].
      - right. lia.
      - left. congruence. }
    rewrite Hw in Hrq. rewrite Hrq. cbn [rq_tools rq_tool_choice base_params].
    repeat split.
    pose proof (skipn_nil_length _ _ (Hlast Hw)).
    assert (S i < List.length (rounds_of log))%nat
      by (apply nth_error_Some; congruence).
    lia.
Qed.

(** C2. When the first response's stop reason is not ["tool_use"], exactly
    one Model Client call is made and the run returns what
    [response.content[0].text] evaluates to: the first block's text,
    unchanged. *)
Theorem direct_response_returned query history tools tm R w resp w1 :
  create w (first_request model query history tools) = (inl resp, w1) ->
  stop_reason resp <> "tool_use" ->
  generate_response create model query history tools tm R (init w) =
    (text0 resp,
     mkSt w1 [ModelCall (first_request model query history tools) (inl resp)]) /\
  forall text rest,
    content resp = TextBlock text :: rest ->
    fst (generate_response create model query history tools tm R (init w)) =
      Val text.
Proof.
  intros Hc Hs.
  assert (E : generate_response create model query history tools tm R (init w) =
    (answer (inl resp),
     mkSt w1 [ModelCall (first_request model query history tools) (inl resp)])).
  { apply generate_direct; auto. intros r t Hr _. inversion Hr. now subst. }
  split; [exact E|].
  intros text rest Hcont. rewrite E. cbn [fst answer]. unfold text0.
  now rewrite Hcont.
Qed.

(** C10. A tool-use first response without a tool manager is answered
    directly: one Model Client call, no executor call, and the value of
    [response.content[0].text].  The loop runs exactly when the stop
    reason is ["tool_use"] and a tool manager is present. *)
Theorem loop_needs_tool_manager query history tools R w resp w1 :
  create w (first_request model query history tools) = (inl resp, w1) ->
  let s1 := mkSt w1 [ModelCall (first_request model query history tools) (inl resp)] in
  (stop_reason resp = "tool_use" ->
   generate_response create model query history tools None R (init w) =
     (text0 resp, s1)) /\
  (forall tm,
     stop_reason resp <> "tool_use" \/ tm = None ->
     generate_response create model query history tools tm R (init w) =
       (text0 resp, s1)) /\
  (forall t,
     stop_reason resp = "tool_use" ->
     generate_response create model query history tools (Some t) R (init w) =
       _handle_tool_execution create model resp
         (first_request model query history tools) t tools R s1).
Proof.
  intros Hc s1. split; [|split].
  - intros _. apply (@generate_direct query history tools R None w _ _ Hc).
    intros; discriminate.
  - intros tm Hno. apply (@generate_direct query history tools R tm w _ _ Hc).
    intros r t Hr Ht. inversion Hr; subst. destruct Hno; congruence.
  - intros t Hs.
    apply (@generate_loop query history tools R t w _ _ Hc Hs).
Qed.







(** C6. On every Model Client call of a run the transcript starts with a
    user message and its roles alternate, and so does every prefix of it,
    which covers every value the [messages] list takes on the way: no two
    neighbouring messages share a role. *)
Theorem transcript_roles_alternate query history tools tm R w :
  Forall
    (fun rq =>
       (forall n, alternates user (firstn n (rq_messages rq)) = true) /\
       (exists m rest, rq_messages rq = m :: rest /\ role m = user) /\
       (forall j m m',
          nth_error (rq_messages rq) j = Some m ->
          nth_error (rq_messages rq) (S j) = Some m' ->
          role m <> role m'))
    (model_requests
       (calls (snd (generate_response create model query history tools tm R
                      (init w))))).
Proof.
  assert (Hall : Forall (fun rq => alternates user (rq_messages rq) = true /\
                                   rq_messages rq <> [])
    (model_requests
       (calls (snd (generate_response create model query history tools tm R
                      (init w)))))).
  { destruct (generate_cases query history tools R tm w)
      as (out & evs & res & s' & Hr & Hl & Hc).
    rewrite Hr. cbn [snd]. rewrite Hl. unfold model_requests.
    cbn [rounds_of map rd_request]. constructor.
    - unfold first_request. rewrite rq_messages_add_tools.
      split; [reflexivity | discriminate].
    - destruct Hc as [[-> _]|(resp & t & _ & _ & _ & HL)]; [constructor|].
      apply (loop_alternates HL); reflexivity. }
  eapply Forall_impl; [|exact Hall].
  intros rq [Ha Hne]. split; [|split].
  - intros n. now apply alternates_firstn.
  - destruct (rq_messages rq) as [|m rest] eqn:E.
    + contradiction.
    + exists m, rest. split; auto. cbn [alternates] in Ha.
      apply andb_true_iff in Ha. destruct Ha as [Ha _]. now apply role_eqb_eq.
  - intros j m m'. now apply alternates_adjacent with (expected := user).
Qed.

(** C8. Against a Model Client and an executor that answer by their
    inputs alone, two runs with the same arguments, from whatever states
    of the world, return the same result and leave the same log: the same
    requests with the same transcripts, the same tool calls, in the same
    order. *)
Theorem generate_response_deterministic query history tools tm R w1 w2 :
  client_deterministic create ->
  executor_deterministic tm ->
  let run1 := generate_response create model query history tools tm R (init w1) in
  let run2 := generate_response create model query history tools tm R (init w2) in
  fst run1 = fst run2 /\
  calls (snd run1) = calls (snd run2) /\
  model_requests (calls (snd run1)) = model_requests (calls (snd run2)).
Proof.
  intros Hc Ht run1 run2.
  assert (H : fst run1 = fst run2 /\ calls (snd run1) = calls (snd run2)).
  { unfold run1, run2, generate_response, bind, messages_create.
    cbn [init world calls app].
    pose proof (Hc w1 w2 (first_request model query history tools)) as E.
    unfold first_request in E.
    destruct (create w1 _) as [o1 u1], (create w2 _) as [o2 u2].
    cbn [fst] in E. subst o2.
    destruct o1 as [resp|e]; cbn [of_outcome]; [|split; reflexivity].
    destruct (stop_reason resp =? "tool_use")%string;
      [|rewrite !content0_text_eq; split; reflexivity].
    destruct tm as [t|]; [|rewrite !content0_text_eq; split; reflexivity].
    unfold _handle_tool_execution.
    apply tool_loop_det; [exact Hc | exact (Ht t eq_refl) | reflexivity]. }
  destruct H as [H1 H2]. repeat split; auto. now rewrite H2.
Qed.

(** C9, with an empty history counted as none. Every Model Client call of
    a run carries the same system
    string.  It is [SYSTEM_PROMPT] when the history is [None] or the empty
    string, and [SYSTEM_PROMPT] followed by a blank line, the label
    ["Previous conversation:"] and the history when the history is a
    non-empty string. *)
Theorem system_prompt_on_every_call query history tools tm R w :
  Forall (fun rq => rq_system rq = system_content history)
    (model_requests
       (calls (snd (generate_response create model query history tools tm R
                      (init w))))) /\
  system_content None = SYSTEM_PROMPT /\
  system_content (Some EmptyString) = SYSTEM_PROMPT /\
  forall c h,
    system_content (Some (String c h)) =
    (SYSTEM_PROMPT ++ nl ++ nl ++ "Previous conversation:" ++ nl ++ String c h)%string.
Proof.
  split; [|repeat split].
  destruct (generate_cases query history tools R tm w)
    as (out & evs & res & s' & Hr & Hl & Hc).
  rewrite Hr. cbn [snd]. rewrite Hl. unfold model_requests.
  cbn [rounds_of map rd_request]. constructor.
  - unfold first_request. now rewrite rq_system_add_tools.
  - destruct Hc as [[-> _]|(resp & t & _ & _ & _ & HL)]; [constructor|].
    apply (loop_systems HL).
Qed.

(** ** Further properties of a run *)

Lemma tool_events_no_model_call uses outs rq out :
  ~ In (ModelCall rq out) (tool_events uses outs).
Proof.
  unfold tool_events. intros H. apply in_map_iff in H.
  destruct H as ([[[i n] a] o] & E & _). discriminate.
Qed.

Lemma tool_events_requested uses outs name input out :
  In (ToolCall name input out) (tool_events uses outs) ->
  exists id, In (id, name, input) uses.
Proof.
  unfold tool_events. intros H. apply in_map_iff in H.
  destruct H as ([[[i n] a] o] & E & Hin). inversion E; subst.
  exists i. eapply in_combine_l. exact Hin.
Qed.

Lemma loop_parameters system tools R k resp msgs evs res :
  LoopRun model system tools R k resp msgs evs res ->
  Forall (fun rq => rq_model rq = model /\ rq_temperature rq = 0 /\
                    rq_max_tokens rq = 800)
    (model_requests evs).
Proof.
  unfold model_requests.
  induction 1; rewrite ?rounds_of_tool_events; cbn [rounds_of map rd_request];
    repeat constructor; auto; unfold add_tools;
    destruct (tools_truthy tools); reflexivity.
Qed.

Lemma loop_tools system tools R k resp msgs evs res :
  LoopRun model system tools R k resp msgs evs res ->
  Forall (fun rq =>
            (rq_tools rq = None /\ rq_tool_choice rq = None) \/
            (tools_truthy tools = true /\ rq_tools rq = tools /\
             rq_tool_choice rq = Some "auto"))
    (model_requests evs).
Proof.
  assert (Hadd : forall p, rq_tools p = None -> rq_tool_choice p = None ->
            (rq_tools (add_tools tools p) = None /\
             rq_tool_choice (add_tools tools p) = None) \/
            (tools_truthy tools = true /\ rq_tools (add_tools tools p) = tools /\
             rq_tool_choice (add_tools tools p) = Some "auto")).
  { intros p H1 H2. unfold add_tools.
    destruct (tools_truthy tools); cbn; auto. }
  unfold model_requests.
  induction 1; rewrite ?rounds_of_tool_events; cbn [rounds_of map rd_request].
  - constructor.
  - constructor.
  - constructor; [left; split; reflexivity | constructor].
  - constructor; [apply Hadd; reflexivity | constructor].
  - constructor; [apply Hadd; reflexivity | assumption].
Qed.

Lemma round_messages_head m rest resp trs :
  exists rest', round_messages (m :: rest) resp trs = m :: rest'.
Proof. unfold round_messages. cbn [app]. eauto. Qed.

Lemma loop_first_message system tools R k resp msgs evs res :
  LoopRun model system tools R k resp msgs evs res ->
  forall m rest, msgs = m :: rest ->
    Forall (fun rq => exists rest', rq_messages rq = m :: rest')
      (model_requests evs).
Proof.
  unfold model_requests.
  induction 1 as [k resp msgs Hk
                 |k resp msgs done id name input left outs e Hk Hu Hlen Hesc Hx
                 |k resp msgs outs out Hk Hlen Hesc Hfin
                 |k resp msgs outs out Hk Hlen Hesc Hne Hstop
                 |k resp msgs outs resp' evs res Hk Hlen Hesc Hne Hstop Hrun IH];
    intros m rest ->; rewrite ?rounds_of_tool_events;
    cbn [rounds_of map rd_request].
  - constructor.
  - constructor.
  - repeat constructor. cbn [rq_messages base_params]. apply round_messages_head.
  - repeat constructor. rewrite rq_messages_add_tools.
    cbn [rq_messages base_params]. apply round_messages_head.
  - destruct (round_messages_head m rest resp
                (tool_results (tool_uses (content resp)) outs)) as (rest' & E).
    constructor.
    + rewrite rq_messages_add_tools. cbn [rq_messages base_params]. eauto.
    + apply (IH m rest'). exact E.
Qed.

Lemma loop_client_exception system tools R k resp msgs evs res :
  LoopRun model system tools R k resp msgs evs res ->
  forall rq e,
    In (ModelCall rq (inr e)) evs ->
    res = Exc e /\ exists pre, evs = pre ++ [ModelCall rq (inr e)].
Proof.
  induction 1 as [k resp msgs Hk
                 |k resp msgs done id name input left outs e Hk Hu Hlen Hesc Hx
                 |k resp msgs outs out Hk Hlen Hesc Hfin
                 |k resp msgs outs out Hk Hlen Hesc Hne Hstop
                 |k resp msgs outs resp' evs res Hk Hlen Hesc Hne Hstop Hrun IH];
    intros rq e0 Hin.
  - destruct Hin.
  - apply in_app_or in Hin. destruct Hin as [Hin|[Hin|[]]].
    + now apply tool_events_no_model_call in Hin.
    + discriminate.
  - apply in_app_or in Hin. destruct Hin as [Hin|[Hin|[]]].
    + now apply tool_events_no_model_call in Hin.
    + inversion Hin; subst. split; [reflexivity | eauto].
  - apply in_app_or in Hin. destruct Hin as [Hin|[Hin|[]]].
    + now apply tool_events_no_model_call in Hin.
    + inversion Hin; subst. split; [reflexivity | eauto].
  - apply in_app_or in Hin. destruct Hin as [Hin|[Hin|Hin]].
    + now apply tool_events_no_model_call in Hin.
    + discriminate.
    + destruct (IH rq e0 Hin) as (-> & pre & ->). split; [reflexivity|].
      eexists (_ ++ _ :: pre). rewrite <- app_assoc. reflexivity.
Qed.

Lemma loop_tool_calls_requested system tools R k resp msgs evs res :
  LoopRun model system tools R k resp msgs evs res ->
  forall name input out,
    In (ToolCall name input out) evs ->
    (exists id, In (id, name, input) (tool_uses (content resp))) \/
    (exists rq r id,
       In (ModelCall rq (inl r)) evs /\ stop_reason r = "tool_use" /\
       In (id, name, input) (tool_uses (content r))).
Proof.
  induction 1 as [k resp msgs Hk
                 |k resp msgs done id name input left outs e Hk Hu Hlen Hesc Hx
                 |k resp msgs outs out Hk Hlen Hesc Hfin
                 |k resp msgs outs out Hk Hlen Hesc Hne Hstop
                 |k resp msgs outs resp' evs res Hk Hlen Hesc Hne Hstop Hrun IH];
    intros name0 input0 o Hin.
  - destruct Hin.
  - left. rewrite Hu. apply in_app_or in Hin. destruct Hin as [Hin|[Hin|[]]].
    + destruct (tool_events_requested _ _ _ _ _ Hin) as (id0 & Hid).
      exists id0. apply in_or_app. left. exact Hid.
    + inversion Hin; subst. exists id. apply in_or_app. right. left. reflexivity.
  - apply in_app_or in Hin. destruct Hin as [Hin|[Hin|[]]]; [|discriminate].
    left. eapply tool_events_requested. exact Hin.
  - apply in_app_or in Hin. destruct Hin as [Hin|[Hin|[]]]; [|discriminate].
    left. eapply tool_events_requested. exact Hin.
  - apply in_app_or in Hin. destruct Hin as [Hin|[Hin|Hin]]; [|discriminate|].
    + left. eapply tool_events_requested. exact Hin.
    + right. destruct (IH name0 input0 o Hin) as [(id0 & Hid)|(rq & r & id0 & Hr & Hs & Hid)].
      * eexists _, resp', id0. split; [|split; [exact Hstop | exact Hid]].
        apply in_or_app. right. left. reflexivity.
      * exists rq, r, id0. split; [|split; [exact Hs | exact Hid]].
        apply in_or_app. right. right. exact Hr.
Qed.

(** X1. Every Model Client call of a run carries the generator's model
    name, temperature 0 and a limit of 800 tokens. *)
Theorem fixed_parameters_on_every_call query history tools tm R w :
  Forall (fun rq => rq_model rq = model /\ rq_temperature rq = 0 /\
                    rq_max_tokens rq = 800)
    (model_requests
       (calls (snd (generate_response create model query history tools tm R
                      (init w))))).
Proof.
  destruct (generate_cases query history tools R tm w)
    as (out & evs & res & s' & Hr & Hl & Hc).
  rewrite Hr. cbn [snd]. rewrite Hl. unfold model_requests.
  cbn [rounds_of map rd_request]. constructor.
  - unfold first_request, add_tools. destruct (tools_truthy tools); auto.
  - destruct Hc as [[-> _]|(resp & t & _ & _ & _ & HL)]; [constructor|].
    apply (loop_parameters HL).
Qed.

(** X2. On every Model Client call of a run [tools] and [tool_choice] come
    together or not at all: either both keys are missing, or the tool list
    is non-empty and is sent as given, with the automatic tool choice.
    The first call carries the tools exactly when the list is non-empty. *)
Theorem tools_and_tool_choice_together query history tools tm R w :
  let requests :=
    model_requests
      (calls (snd (generate_response create model query history tools tm R
                     (init w)))) in
  Forall (fun rq =>
            (rq_tools rq = None /\ rq_tool_choice rq = None) \/
            (tools_truthy tools = true /\ rq_tools rq = tools /\
             rq_tool_choice rq = Some "auto"))
    requests /\
  exists rq0 rest,
    requests = rq0 :: rest /\
    rq_tools rq0 = (if tools_truthy tools then tools else None) /\
    rq_tool_choice rq0 = (if tools_truthy tools then Some "auto" else None).
Proof.
  intros requests. unfold requests.
  destruct (generate_cases query history tools R tm w)
    as (out & evs & res & s' & Hr & Hl & Hc).
  rewrite Hr. cbn [snd]. rewrite Hl. unfold model_requests.
  cbn [rounds_of map rd_request]. split.
  - constructor.
    + unfold first_request, add_tools. destruct (tools_truthy tools); cbn; auto.
    + destruct Hc as [[-> _]|(resp & t & _ & _ & _ & HL)]; [constructor|].
      apply (loop_tools HL).
  - eexists _, _. split; [reflexivity|].
    unfold first_request, add_tools. destruct (tools_truthy tools); cbn; auto.
Qed.

(** X3. The transcript only grows: every Model Client call of a run sends
    a transcript whose first message is the user's query, and each call
    after the first sends the previous call's transcript with one or two
    messages added at the end. *)
Theorem transcript_grows query history tools tm R w :
  let log :=
    calls (snd (generate_response create model query history tools tm R (init w))) in
  Forall (fun rq =>
            exists rest,
              rq_messages rq = mkMessage user (PlainText query) :: rest)
    (model_requests log) /\
  forall i rd rd',
    nth_error (rounds_of log) i = Some rd ->
    nth_error (rounds_of log) (S i) = Some rd' ->
    exists added,
      rq_messages (rd_request rd') = rq_messages (rd_request rd) ++ added /\
      (1 <= List.length added <= 2)%nat.
Proof.
  intros log. split.
  - unfold log.
    destruct (generate_cases query history tools R tm w)
      as (out & evs & res & s' & Hr & Hl & Hc).
    rewrite Hr. cbn [snd]. rewrite Hl. unfold model_requests.
    cbn [rounds_of map rd_request]. constructor.
    + unfold first_request. rewrite rq_messages_add_tools. cbn. eauto.
    + destruct Hc as [[-> _]|(resp & t & _ & _ & _ & HL)]; [constructor|].
      apply (loop_first_message HL eq_refl).
  - intros i rd rd' Hi Hsi.
    pose proof (generate_rounds_wf query history tools R tm w) as Hwf.
    fold log in Hwf.
    destruct (@rounds_wf_nth _ _ _ _ _ _ _ _ Hwf Hi Hsi)
      as (r & outs & Hout & Hk & Hlen & Hesc & Htools & Hrq & _ & _).
    assert (Hmsgs : rq_messages (rd_request rd') =
              round_messages (rq_messages (rd_request rd)) r
                (tool_results (tool_uses (content r)) outs)).
    { rewrite Hrq. destruct (wraps_up R (1 + Z.of_nat i) r); auto.
      apply rq_messages_add_tools. }
    rewrite Hmsgs. unfold round_messages. rewrite <- app_assoc.
    eexists. split; [reflexivity|].
    destruct (list_truthy _); cbn; lia.
Qed.

(** X4. A run goes on after a Model Client call only when that call
    returned a response whose stop reason is ["tool_use"], a tool manager
    is present and a round is left: every call that is not the last one
    of the run is of this kind. *)
Theorem run_continues_only_on_tool_use query history tools tm R w :
  let log :=
    calls (snd (generate_response create model query history tools tm R (init w))) in
  forall i rd rd',
    nth_error (rounds_of log) i = Some rd ->
    nth_error (rounds_of log) (S i) = Some rd' ->
    (exists r, rd_outcome rd = inl r /\ stop_reason r = "tool_use") /\
    (exists t, tm = Some t) /\
    Z.of_nat (S i) <= R.
Proof.
  intros log i rd rd' Hi Hsi.
  pose proof (generate_rounds_wf query history tools R tm w) as Hwf.
  fold log in Hwf.
  destruct (@rounds_wf_nth _ _ _ _ _ _ _ _ Hwf Hi Hsi)
    as (r & outs & Hout & Hk & _).
  assert (Htm : exists t, tm = Some t).
  { unfold log in Hi, Hsi.
    destruct (generate_cases query history tools R tm w)
      as (out & evs & res & s' & Hr & Hl & Hc).
    rewrite Hr in Hi, Hsi. cbn [snd] in Hi, Hsi. rewrite Hl in Hi, Hsi.
    destruct Hc as [[-> _]|(resp & t & _ & -> & _ & _)]; [|eauto].
    cbn in Hsi. destruct i; discriminate. }
  split; [|split; [exact Htm | lia]].
  destruct i as [|i].
  - unfold log in Hi, Hsi.
    destruct (generate_cases query history tools R tm w)
      as (out & evs & res & s' & Hr & Hl & Hc).
    rewrite Hr in Hi, Hsi. cbn [snd] in Hi, Hsi. rewrite Hl in Hi, Hsi.
    destruct Hc as [[-> _]|(resp & t & -> & _ & Hs & _)].
    + discriminate.
    + cbn in Hi. inversion Hi; subst. cbn. eauto.
  - destruct (nth_error (rounds_of log) i) as [rd0|] eqn:H0.
    2:{ apply nth_error_None in H0.
        assert (S i < List.length (rounds_of log))%nat
          by (apply nth_error_Some; congruence).
        lia. }
    destruct (@rounds_wf_nth _ _ _ _ _ _ _ _ Hwf H0 Hi)
      as (r0 & outs0 & _ & _ & _ & _ & _ & _ & _ & Hnext).
    apply Hnext. intros E.
    assert (Hlen : (List.length (rounds_of log) <= S (S i))%nat)
      by (apply skipn_nil_length; exact E).
    assert (S (S i) < List.length (rounds_of log))%nat
      by (apply nth_error_Some; congruence).
    lia.
Qed.

(** X5. An exception raised by a Model Client call is not handled: it
    ends the run at that call and reaches the caller as it is. *)
Theorem client_exception_propagates query history tools tm R w rq e :
  let run := generate_response create model query history tools tm R (init w) in
  In (ModelCall rq (inr e)) (calls (snd run)) ->
  fst run = Exc e /\
  exists pre, calls (snd run) = pre ++ [ModelCall rq (inr e)].
Proof.
  intros run. unfold run.
  destruct (generate_cases query history tools R tm w)
    as (out & evs & res & s' & Hr & Hl & Hc).
  rewrite Hr. cbn [fst snd]. rewrite Hl. intros Hin.
  destruct Hc as [[-> ->]|(resp & t & -> & _ & _ & HL)].
  - destruct Hin as [Hin|[]]. inversion Hin; subst.
    split; [reflexivity|]. exists []. reflexivity.
  - destruct Hin as [Hin|Hin]; [discriminate|].
    destruct (loop_client_exception HL _ _ Hin) as (-> & pre & ->).
    split; [reflexivity|].
    exists (ModelCall (first_request model query history tools) (inl resp) :: pre).
    reflexivity.
Qed.

(** X6. The executor is only ever invoked for what the model asked for:
    every executor call in the log has the name and the input of a
    tool-use block in a response, with stop reason ["tool_use"], that a
    Model Client call of the same run returned. *)
Theorem tool_calls_were_requested query history tools tm R w name input out :
  let log :=
    calls (snd (generate_response create model query history tools tm R (init w))) in
  In (ToolCall name input out) log ->
  exists rq r id,
    In (ModelCall rq (inl r)) log /\
    stop_reason r = "tool_use" /\
    In (id, name, input) (tool_uses (content r)).
Proof.
  intros log. unfold log.
  destruct (generate_cases query history tools R tm w)
    as (o & evs & res & s' & Hr & Hl & Hc).
  rewrite Hr. cbn [snd]. rewrite Hl. intros Hin.
  destruct Hin as [Hin|Hin]; [discriminate|].
  destruct Hc as [[-> _]|(resp & t & -> & _ & Hs & HL)]; [destruct Hin|].
  destruct (loop_tool_calls_requested HL _ _ _ Hin)
    as [(id & Hid)|(rq & r & id & Hr' & Hs' & Hid)].
  - exists (first_request model query history tools), resp, id.
    split; [left; reflexivity | auto].
  - exists rq, r, id. split; [right; exact Hr' | auto].
Qed.

(** X7. Without a permitted round ([max_tool_rounds <= 0]) a tool-use
    response is not negotiated at all: after the first Model Client call
    no tool is executed, no further call is made, and the fixed fallback
    text is returned. *)
Theorem no_rounds_gives_fallback query history tools (t : Executor W) R w resp w1 :
  R <= 0 ->
  create w (first_request model query history tools) = (inl resp, w1) ->
  stop_reason resp = "tool_use" ->
  generate_response create model query history tools (Some t) R (init w) =
    (Val FALLBACK,
     mkSt w1 [ModelCall (first_request model query history tools) (inl resp)]).
Proof.
  intros HR Hc Hs.
  destruct (@generate_loop query history tools R t w _ _ Hc Hs) as (E & _).
  rewrite E. unfold _handle_tool_execution.
  replace (Z.to_nat R) with 0%nat by lia. cbn [tool_loop].
  destruct (1 <=? R) eqn:E1; [apply Z.leb_le in E1; lia | reflexivity].
Qed.


(** X9. A round that is neither the last permitted one nor empty asks the
    model again with the tools still attached: the next Model Client call
    carries the tool list and the automatic tool choice whenever the list
    is non-empty. *)
Theorem follow_up_keeps_tools query history tools tm R w :
  let log :=
    calls (snd (generate_response create model query history tools tm R (init w))) in
  forall i rd rd' r,
    nth_error (rounds_of log) i = Some rd ->
    nth_error (rounds_of log) (S i) = Some rd' ->
    rd_outcome rd = inl r ->
    Z.of_nat (S i) < R ->
    tool_uses (content r) <> [] ->
    rq_tools (rd_request rd') = (if tools_truthy tools then tools else None) /\
    rq_tool_choice (rd_request rd') =
      (if tools_truthy tools then Some "auto" else None).
Proof.
  intros log i rd rd' r Hi Hsi Hout HR Hne.
  pose proof (generate_rounds_wf query history tools R tm w) as Hwf.
  fold log in Hwf.
  destruct (@rounds_wf_nth _ _ _ _ _ _ _ _ Hwf Hi Hsi)
    as (r' & outs & Hout' & Hk & Hlen & Hesc & Htools & Hrq & _ & _).
  assert (r' = r) by congruence. subst r'.
  assert (Hw : wraps_up R (1 + Z.of_nat i) r = false).
  { apply wraps_up_false. split; [exact Hne | lia]. }
  rewrite Hw in Hrq. rewrite Hrq. unfold add_tools.
  destruct (tools_truthy tools); cbn; auto.
Qed.

(** X10. A response without any content block cannot be answered from:
    when the last Model Client call of a run with at least one permitted
    round returned an empty content list, the run raises [IndexError]. *)
Theorem empty_content_raises query history tools tm R w pre rq r :
  let run := generate_response create model query history tools tm R (init w) in
  1 <= R ->
  calls (snd run) = pre ++ [ModelCall rq (inl r)] ->
  content r = [] ->
  fst run = Exc IndexError.
Proof.
  intros run HR. unfold run.
  destruct (generate_cases query history tools R tm w)
    as (out & evs & res & s' & Hr & Hl & Hc).
  rewrite Hr. cbn [fst snd]. rewrite Hl. intros Hlog Hcont.
  assert (Hlast : exists pre' rq' out',
            ModelCall (first_request model query history tools) out :: evs =
              pre' ++ [ModelCall rq' out'] /\ res = answer out').
  { destruct Hc as [[-> ->]|(resp & t & -> & _ & _ & HL)].
    - exists [], (first_request model query history tools), out. auto.
    - destruct (loop_result HL HR)
        as [(p & rq' & o & -> & ->)|(p & n & i & e & -> & _ & _)].
      + exists (ModelCall (first_request model query history tools) (inl resp) :: p),
          rq', o. auto.
      + rewrite app_comm_cons in Hlog. apply app_inj_tail in Hlog.
        destruct Hlog as [_ Hlog]. discriminate. }
  destruct Hlast as (pre' & rq' & out' & E & ->).
  rewrite Hlog in E. apply app_inj_tail in E. destruct E as [_ E].
  inversion E; subst. cbn. unfold text0. now rewrite Hcont.
Qed.





End Properties.

(** * The test scenarios *)

Import Mock.

Example test_direct_response_no_tools :
  run "Test query" None None None 2 (start [inl (says "Test response")] []) =
  (Val "Test response",
   mkSt (mkWorld [] [])
     [ModelCall (first_request "test_model" "Test query" None None)
        (inl (says "Test response"))]).
Proof. reflexivity. Qed.

Example test_single_tool_call :
  fst single_run = Val "Final response after tool use" /\
  List.length (model_requests (calls (snd single_run))) = 2%nat /\
  tool_invocations (calls (snd single_run)) =
    [("test_tool_1", [("param", "value")])].
Proof. repeat split; reflexivity. Qed.

Example test_sequential_tool_calls :
  fst sequential_run = Val "Final response after sequential tool use" /\
  List.length (model_requests (calls (snd sequential_run))) = 3%nat /\
  tool_invocations (calls (snd sequential_run)) =
    [("test_tool_1", [("param", "value")]);
     ("test_tool_2", [("param", "value")])] /\
  map rq_tools (model_requests (calls (snd sequential_run))) =
    [test_tools; test_tools; None].
Proof. repeat split; reflexivity. Qed.

Example test_tool_execution_error_handling :
  fst error_run = Val "Final response after error" /\
  List.length (model_requests (calls (snd error_run))) = 2%nat /\
  map rq_messages (model_requests (calls (snd error_run))) =
    [[mkMessage user (PlainText "Test query with tool error")];
     [mkMessage user (PlainText "Test query with tool error");
      mkMessage assistant (Blocks [tool_block "tool_id" "test_tool_1"]);
      mkMessage user
        (Results
           [mkToolResult "tool_id"
              "Error executing tool: Test tool execution error"])]].
Proof. repeat split; reflexivity. Qed.

(** Without a permitted round the loop is skipped and the fallback is
    what comes back. *)
Example fallback_without_rounds :
  fst (run "Test query" None test_tools (Some tool_manager) 0
         sequential_tool_calls) = Val FALLBACK.
Proof. reflexivity. Qed.

(** An interrupt from the keyboard inside the executor is not turned into
    a tool result: it ends the run after the first Model Client call. *)
Example tool_interrupt_escapes :
  fst interrupted_run = Exc (mkExn "KeyboardInterrupt" EmptyString) /\
  List.length (model_requests (calls (snd interrupted_run))) = 1%nat /\
  tool_invocations (calls (snd interrupted_run)) =
    [("test_tool_1", [("param", "value")])].
Proof. repeat split; reflexivity. Qed.

(** * Witnesses and counterexamples *)

Lemma model_calls_bounded_witness :
  1 <= 2 /\
  Z.of_nat (List.length (model_requests (calls (snd sequential_run)))) <= 2 + 1 /\
  forall i rd rd',
    nth_error (rounds_of (calls (snd sequential_run))) i = Some rd ->
    nth_error (rounds_of (calls (snd sequential_run))) (S i) = Some rd' ->
    (2 <= Z.of_nat (S i) \/
     exists r, rd_outcome rd = inl r /\ tool_uses (content r) = []) ->
    rq_tools (rd_request rd') = None /\
    rq_tool_choice (rd_request rd') = None /\
    List.length (rounds_of (calls (snd sequential_run))) = S (S i).
Proof.
  split; [lia|].
  apply (@model_calls_bounded World create "test_model"
           "Test query with sequential tools" None test_tools tool_manager 2
           (world sequential_tool_calls)
           (wants_tool "tool_1_id" "test_tool_1")
           (mkWorld [inl (wants_tool "tool_2_id" "test_tool_2");
                     inl (says "Final response after sequential tool use")]
                    [inl "Tool 1 result"; inl "Tool 2 result"]));
    [lia | reflexivity | reflexivity].
Defined.

Lemma direct_response_returned_witness :
  run "Test query" None None None 2 (start [inl (says "Test response")] []) =
    (text0 (says "Test response"),
     mkSt (mkWorld [] [])
       [ModelCall (first_request "test_model" "Test query" None None)
          (inl (says "Test response"))]) /\
  forall text rest,
    content (says "Test response") = TextBlock text :: rest ->
    fst (run "Test query" None None None 2
           (start [inl (says "Test response")] [])) = Val text.
Proof.
  apply (@direct_response_returned World create "test_model" "Test query"
           None None None 2 (mkWorld [inl (says "Test response")] [])
           (says "Test response") (mkWorld [] []));
    [reflexivity | discriminate].
Defined.

Lemma loop_needs_tool_manager_witness :
  run "Test query with tool" None test_tools None 2 single_tool_call =
    (text0 (wants_tool "tool_1_id" "test_tool_1"),
     mkSt (mkWorld [inl (says "Final response after tool use")]
                   [inl "Tool execution result"])
       [ModelCall (first_request "test_model" "Test query with tool" None test_tools)
          (inl (wants_tool "tool_1_id" "test_tool_1"))]).
Proof.
  apply (proj1 (@loop_needs_tool_manager World create "test_model"
           "Test query with tool" None test_tools 2 (world single_tool_call)
           (wants_tool "tool_1_id" "test_tool_1")
           (mkWorld [inl (says "Final response after tool use")]
                    [inl "Tool execution result"]) eq_refl)).
  reflexivity.
Defined.




Lemma transcript_roles_alternate_witness :
  Forall
    (fun rq =>
       (forall n, alternates user (firstn n (rq_messages rq)) = true) /\
       (exists m rest, rq_messages rq = m :: rest /\ role m = user) /\
       (forall j m m',
          nth_error (rq_messages rq) j = Some m ->
          nth_error (rq_messages rq) (S j) = Some m' ->
          role m <> role m'))
    (model_requests (calls (snd sequential_run))).
Proof.
  exact (@transcript_roles_alternate World create "test_model"
           "Test query with sequential tools" None test_tools
           (Some tool_manager) 2 (world sequential_tool_calls)).
Defined.


Lemma generate_response_deterministic_witness :
  let run1 :=
    generate_response counting_create "test_model" "Test query with tool" None
      test_tools (Some counting_tool_manager) 2 (init 0%nat) in
  let run2 :=
    generate_response counting_create "test_model" "Test query with tool" None
      test_tools (Some counting_tool_manager) 2 (init 7%nat) in
  fst run1 = fst run2 /\
  calls (snd run1) = calls (snd run2) /\
  model_requests (calls (snd run1)) = model_requests (calls (snd run2)).
Proof.
  apply (@generate_response_deterministic nat counting_create "test_model"
           "Test query with tool" None test_tools (Some counting_tool_manager)
           2 0%nat 7%nat).
  - intros w w' rq. reflexivity.
  - intros t Ht w w' name input. inversion Ht. reflexivity.
Defined.

Lemma system_prompt_on_every_call_witness :
  Forall (fun rq => rq_system rq = system_content (Some "Earlier turn"))
    (model_requests
       (calls (snd (run "Test query with sequential tools" (Some "Earlier turn")
                      test_tools (Some tool_manager) 2 sequential_tool_calls)))).
Proof.
  exact (proj1 (@system_prompt_on_every_call World create "test_model"
                  "Test query with sequential tools" (Some "Earlier turn")
                  test_tools (Some tool_manager) 2
                  (world sequential_tool_calls))).
Defined.



(** An empty history string is present, and yet the system string is the
    bare prompt, without the labelled section. *)
Lemma empty_history_gets_no_section :
  map rq_system (model_requests (calls (snd empty_history_run))) =
    [SYSTEM_PROMPT] /\
  SYSTEM_PROMPT <>
    (SYSTEM_PROMPT ++ nl ++ nl ++ "Previous conversation:" ++ nl ++ EmptyString)%string.
Proof.
  split; [reflexivity|].
  intros H. apply (f_equal String.length) in H. vm_compute in H. discriminate.
Qed.

(** * Witnesses of the further properties *)

Lemma transcript_grows_witness :
  exists added,
    rq_messages (rd_request single_round1) =
      rq_messages (rd_request single_round0) ++ added /\
    (1 <= List.length added <= 2)%nat.
Proof.
  exact (proj2 (@transcript_grows World create "test_model"
                  "Test query with tool" None test_tools (Some tool_manager) 2
                  (world single_tool_call))
           0%nat single_round0 single_round1 eq_refl eq_refl).
Defined.

Lemma run_continues_only_on_tool_use_witness :
  (exists r, rd_outcome single_round0 = inl r /\ stop_reason r = "tool_use") /\
  (exists t, Some tool_manager = Some t) /\
  Z.of_nat 1 <= 2.
Proof.
  exact (@run_continues_only_on_tool_use World create "test_model"
           "Test query with tool" None test_tools (Some tool_manager) 2
           (world single_tool_call)
           0%nat single_round0 single_round1 eq_refl eq_refl).
Defined.

Lemma client_exception_propagates_witness :
  fst failing_run = Exc (mkExn "APIConnectionError" "Connection error.") /\
  exists pre,
    calls (snd failing_run) =
      pre ++ [ModelCall Scenario.failing_request
                (inr (mkExn "APIConnectionError" "Connection error."))].
Proof.
  apply (@client_exception_propagates World create "test_model"
           "Test query with tool error" None test_tools (Some tool_manager) 2
           (world tool_error_then_client_error) Scenario.failing_request
           (mkExn "APIConnectionError" "Connection error.")).
  right. right. left. reflexivity.
Defined.

Lemma tool_calls_were_requested_witness :
  exists rq r id,
    In (ModelCall rq (inl r)) (calls (snd single_run)) /\
    stop_reason r = "tool_use" /\
    In (id, "test_tool_1", [("param", "value")]) (tool_uses (content r)).
Proof.
  apply (@tool_calls_were_requested World create "test_model"
           "Test query with tool" None test_tools (Some tool_manager) 2
           (world single_tool_call) "test_tool_1" [("param", "value")]
           (inl "Tool execution result")).
  right. left. reflexivity.
Defined.

Lemma no_rounds_gives_fallback_witness :
  run "Test query with sequential tools" None test_tools (Some tool_manager) 0
    sequential_tool_calls =
  (Val FALLBACK,
   mkSt (mkWorld [inl (wants_tool "tool_2_id" "test_tool_2");
                  inl (says "Final response after sequential tool use")]
                 [inl "Tool 1 result"; inl "Tool 2 result"])
     [ModelCall
        (first_request "test_model" "Test query with sequential tools" None
           test_tools)
        (inl (wants_tool "tool_1_id" "test_tool_1"))]).
Proof.
  apply (@no_rounds_gives_fallback World create "test_model"
           "Test query with sequential tools" None test_tools tool_manager 0
           (world sequential_tool_calls));
    [lia | reflexivity | reflexivity].
Defined.


Lemma follow_up_keeps_tools_witness :
  rq_tools (rd_request single_round1) =
    (if tools_truthy test_tools then test_tools else None) /\
  rq_tool_choice (rd_request single_round1) =
    (if tools_truthy test_tools then Some "auto" else None).
Proof.
  apply (@follow_up_keeps_tools World create "test_model"
           "Test query with tool" None test_tools (Some tool_manager) 2
           (world single_tool_call)
           0%nat single_round0 single_round1
           (wants_tool "tool_1_id" "test_tool_1"));
    [reflexivity | reflexivity | reflexivity | lia | discriminate].
Defined.

Lemma empty_content_raises_witness :
  fst Scenario.empty_content_run = Exc IndexError.
Proof.
  apply (@empty_content_raises World create "test_model" "Test query"
           None None None 2 (mkWorld [inl Scenario.empty_response] []) []
           (first_request "test_model" "Test query" None None)
           Scenario.empty_response);
    [lia | reflexivity | reflexivity].
Defined.

